(** * Campus dating backend: the HTTP handlers of [main.py] over a document store

    The handlers of [src/main.py] are embedded as functions over an explicit
    store (one list of documents per MongoDB collection, in insertion order).
    Handlers that write run in a state-and-exception monad, so that a raised
    exception keeps whatever had been written before it; handlers that only
    read are plain functions of the store. *)

From Stdlib Require Import ZArith NArith String Ascii List Lia Bool.
From stdpp Require Import base strings list gmap sets.

Local Open Scope string_scope.
Local Open Scope list_scope.

(** ** Strings *)

(** [str.lower()] on the ASCII range. *)
Definition lower_ascii (c : ascii) : ascii :=
  let n := N_of_ascii c in
  if ((65 <=? n) && (n <=? 90))%N then ascii_of_N (n + 32) else c.

Fixpoint lower (s : string) : string :=
  match s with
  | EmptyString => EmptyString
  | String c s' => String (lower_ascii c) (lower s')
  end.

(** [w in s] for strings: [w] occurs in [s] as a substring. *)
Fixpoint contains (w s : string) : bool :=
  String.prefix w s ||
  match s with
  | EmptyString => false
  | String _ s' => contains w s'
  end.

(** [s.endswith(suffix)]. *)
Definition endswith (s suffix : string) : bool :=
  let n := String.length s in
  let k := String.length suffix in
  (k <=? n)%nat && String.eqb (String.substring (n - k) k s) suffix.

(** ** Object identifiers

    A BSON ObjectId is a 12-byte value, kept here as the number it denotes.
    [ObjectId(s)] tests [len(s) == 24] and hands [s] to [bytes.fromhex],
    raising [InvalidId] when either refuses; [str(oid)] prints the 24 digits
    in lower case. [bytes.fromhex] reads two hexadecimal digits (either case)
    per byte and skips ASCII blanks between bytes, so a string of 24
    characters with blanks in it is accepted and gives fewer than 12 bytes:
    an identifier that is not the 12 bytes of any identifier the store
    gives out. *)

Local Open Scope N_scope.

Definition hex_val (c : ascii) : option N :=
  let n := N_of_ascii c in
  if (48 <=? n) && (n <=? 57) then Some (n - 48)
  else if (97 <=? n) && (n <=? 102) then Some (n - 87)
  else if (65 <=? n) && (n <=? 70) then Some (n - 55)
  else None.

(** The number a string of hexadecimal digits denotes, after [acc]. *)
Fixpoint hex_fold (s : string) (acc : N) : option N :=
  match s with
  | EmptyString => Some acc
  | String c s' =>
      match hex_val c with
      | Some d => hex_fold s' (16 * acc + d)
      | None => None
      end
  end.

(** The ASCII blanks: space, and tab to carriage return. *)
Definition is_space (c : ascii) : bool :=
  let n := N_of_ascii c in
  (n =? 32) || ((9 <=? n) && (n <=? 13)).

(** [bytes.fromhex(s)]: the bytes, or [None] for [ValueError]. *)
Fixpoint fromhex (s : string) : option (list N) :=
  match s with
  | EmptyString => Some []
  | String c s' =>
      if is_space c then fromhex s'
      else
        match hex_val c, s' with
        | Some top, String c' s'' =>
            match hex_val c', fromhex s'' with
            | Some bot, Some bytes => Some (16 * top + bot :: bytes)
            | _, _ => None
            end
        | _, _ => None
        end
  end.

(** The number kept for the bytes of an ObjectId: the number the 12 bytes
    denote; for fewer bytes, a number from [2 ^ 96] on, which is no 12-byte
    identifier and tells the byte strings apart. *)
Definition oid_of_bytes (bytes : list N) : N :=
  fold_left (fun acc b => 256 * acc + b) bytes 0
  + 2 ^ 96 * N.of_nat (12 - length bytes).

Definition ObjectId (oid : string) : option N :=
  if (String.length oid =? 24)%nat then
    match fromhex oid with
    | Some bytes => Some (oid_of_bytes bytes)
    | None => None
    end
  else None.

Definition hex_digit (d : N) : ascii :=
  ascii_of_N (if d <? 10 then 48 + d else 87 + d).

Fixpoint hex_str (k : nat) (n : N) (acc : string) : string :=
  match k with
  | O => acc
  | S k' => hex_str k' (n / 16) (String (hex_digit (n mod 16)) acc)
  end.

Definition str (oid : N) : string := hex_str 24 oid "".

Local Close Scope N_scope.

Arguments str : simpl never.
Arguments ObjectId : simpl never.
Arguments lower : simpl never.

(** ** Documents ([schemas.py] and the dictionaries [main.py] stores) *)

Module User.
Record t := mk {
  email : string;
  first_name : option string;
  last_name : option string;
  is_active : bool;
  is_banned : bool;
  residence_id : option string;
  allow_all_residences : bool }.
End User.

Module Photo.
Record t := mk { url : string; order : nat }.
End Photo.

(** The document built by [create_or_update_profile]. It has no
    [residence_id] key (neither has [schemas.Profile]): the residence lives
    on the user. *)
Module Profile.
Record t := mk {
  user_id : string;
  bio : option string;
  age : option Z;
  pronouns : option string;
  year : option string;
  program : option string;
  interests : list string;
  photos : list Photo.t;
  updated_at : Z }.
End Profile.

Module Verification.
Record t := mk {
  email : string;
  token : string;
  purpose : string;
  used : bool;
  expires_at : Z }.
End Verification.

Module Swipe.
Record t := mk { swiper_id : string; target_id : string; direction : string }.
End Swipe.

Module Match.
Record t := mk { user_a : string; user_b : string }.
End Match.

Module Message.
Record t := mk { match_id : string; sender_id : string; text : string }.
End Message.

Module Report.
Record t := mk {
  reporter_id : string;
  target_user_id : option string;
  target_message_id : option string;
  reason : string;
  details : option string }.
End Report.

(** A stored document: the fields above under the [_id] the store gave it. *)
Record doc (A : Type) := Doc { _id : N; body : A }.
Arguments Doc {A} _ _.
Arguments _id {A} _.
Arguments body {A} _.

(** ** The store *)

Record store := Store {
  users : list (doc User.t);
  profiles : list (doc Profile.t);
  verifications : list (doc Verification.t);
  swipes : list (doc Swipe.t);
  matches : list (doc Match.t);
  messages : list (doc Message.t);
  reports : list (doc Report.t);
  next_id : N }.

Definition empty_store : store := Store [] [] [] [] [] [] [] 0%N.

(** The collection names used with [db[...]], typed by their documents. *)
Inductive collection : Type -> Type :=
| c_user : collection User.t
| c_profile : collection Profile.t
| c_verification : collection Verification.t
| c_swipe : collection Swipe.t
| c_match : collection Match.t
| c_message : collection Message.t
| c_report : collection Report.t.

Definition db {A} (c : collection A) : store -> list (doc A) :=
  match c in collection A return store -> list (doc A) with
  | c_user => users
  | c_profile => profiles
  | c_verification => verifications
  | c_swipe => swipes
  | c_match => matches
  | c_message => messages
  | c_report => reports
  end.

Definition db_set {A} (c : collection A) : list (doc A) -> store -> store :=
  match c in collection A return list (doc A) -> store -> store with
  | c_user => fun l s =>
      Store l (profiles s) (verifications s) (swipes s) (matches s) (messages s) (reports s) (next_id s)
  | c_profile => fun l s =>
      Store (users s) l (verifications s) (swipes s) (matches s) (messages s) (reports s) (next_id s)
  | c_verification => fun l s =>
      Store (users s) (profiles s) l (swipes s) (matches s) (messages s) (reports s) (next_id s)
  | c_swipe => fun l s =>
      Store (users s) (profiles s) (verifications s) l (matches s) (messages s) (reports s) (next_id s)
  | c_match => fun l s =>
      Store (users s) (profiles s) (verifications s) (swipes s) l (messages s) (reports s) (next_id s)
  | c_message => fun l s =>
      Store (users s) (profiles s) (verifications s) (swipes s) (matches s) l (reports s) (next_id s)
  | c_report => fun l s =>
      Store (users s) (profiles s) (verifications s) (swipes s) (matches s) (messages s) l (next_id s)
  end.

(** ** Exceptions and the handler monad *)

(** What a handler can raise. [HTTPException] is the structured error the
    handlers raise themselves; [RequestValidationError] is FastAPI's 422 for
    a parameter outside its declared range. [InvalidId] (from [ObjectId]),
    [AttributeError] (a method call on [None]), [OverflowError] (the BSON
    encoder refusing an integer) and [ValidationError] (a [schemas.py] model
    refusing a field) are caught nowhere and surface as an internal server
    error. *)
Inductive exn :=
| HTTPException (status_code : nat) (detail : string)
| RequestValidationError
| InvalidId
| AttributeError
| OverflowError
| ValidationError.

Inductive result (A : Type) := Ok (a : A) | Raise (e : exn).
Arguments Ok {A} _.
Arguments Raise {A} _.

Definition M (A : Type) : Type := store -> result A * store.

Definition ret {A} (a : A) : M A := fun s => (Ok a, s).
Definition raise {A} (e : exn) : M A := fun s => (Raise e, s).
Definition bind {A B} (m : M A) (k : A -> M B) : M B :=
  fun s =>
    match m s with
    | (Ok a, s') => k a s'
    | (Raise e, s') => (Raise e, s')
    end.

Declare Scope handler_scope.
Delimit Scope handler_scope with handler.
Notation "x <- m ;; k" := (bind m (fun x => k))
  (at level 100, m at next level, right associativity) : handler_scope.
Notation "m ;;; k" := (bind m (fun _ => k))
  (at level 100, right associativity) : handler_scope.
Local Open Scope handler_scope.

(** ** Store operations (pymongo, as [main.py] uses it) *)

Section Queries.
Context {A : Type} (c : collection A).
Context (P : doc A -> Prop) `{!forall d, Decision (P d)}.

(** [db[c].find(q)]: the matching documents, in storage order. *)
Definition find (s : store) : list (doc A) := filter P (db c s).

(** [db[c].find_one(q)]: the first matching document, or [None]. *)
Definition find_one (s : store) : option (doc A) := head (find s).

(** [update_one(q, {"$set": ...})] on a list of documents: the first
    match is rewritten, the rest is untouched. *)
Fixpoint update_first (f : A -> A) (l : list (doc A)) : list (doc A) :=
  match l with
  | [] => []
  | d :: l' =>
      if decide (P d) then Doc (_id d) (f (body d)) :: l'
      else d :: update_first f l'
  end.

Definition update_one (f : A -> A) : M unit :=
  fun s => (Ok tt, db_set c (update_first f (db c s)) s).
End Queries.

(** Reading inside a handler. *)
Definition query {A} (f : store -> A) : M A := fun s => (Ok (f s), s).

(** [insert_one]: the document is appended under a fresh [_id]. *)
Definition insert_one {A} (c : collection A) (data : A) : M N :=
  fun s =>
    let oid := next_id s in
    let s' := db_set c (db c s ++ [Doc oid data]) s in
    (Ok oid,
     Store (users s') (profiles s') (verifications s') (swipes s')
           (matches s') (messages s') (reports s') (N.succ oid)).

(** Modelled from the spec: [database.create_document] is not among the
    sources. The persistence gateway is a pure wrapper: it inserts the
    document into the named collection, where it gets its opaque unique
    identifier, and returns that identifier as a string. *)
Definition create_document {A} (c : collection A) (data : A) : M string :=
  oid <- insert_one c data ;; ret (str oid).

(** Modelled from the spec: [database.get_documents] is not among the
    sources. It reads the documents of a collection that match a filter. *)
Definition get_documents {A} (c : collection A) (P : doc A -> Prop)
    `{!forall d, Decision (P d)} : store -> list (doc A) :=
  find c P.

(** ** Constants of [main.py] *)

Definition ALLOWED_DOMAINS : gset string := {[ "polito.it"; "unito.it" ]}.
Definition MAGIC_TOKEN_TTL : Z := 15 * 60.
Definition MIN_PHOTOS : nat := 3.
Definition MAX_PHOTOS : nat := 8.
Definition BANNED_WORDS : gset string := {[ "slur1"; "slur2"; "badword" ]}.

(** ** Request and response models *)

Module SendMagicLinkRequest.
Record t := mk { email : string; purpose : string }.
End SendMagicLinkRequest.

Module VerifyMagicLinkRequest.
Record t := mk { email : string; token : string }.
End VerifyMagicLinkRequest.

Module CreateProfileRequest.
Record t := mk {
  first_name : string;
  last_name : option string;
  residence_id : option string;
  allow_all_residences : bool;
  bio : option string;
  age : option Z;
  pronouns : option string;
  year : option string;
  program : option string;
  interests : list string;
  photos : list string }.
End CreateProfileRequest.

Module SwipeRequest.
Record t := mk { target_id : string; direction : string }.
End SwipeRequest.

Module MessageRequest.
Record t := mk { match_id : string; text : string }.
End MessageRequest.

Module SendMagicLinkResponse.
Record t := mk { message : string; token : string; expires_at : Z }.
End SendMagicLinkResponse.

Module VerifyResponse.
Record t := mk { message : string; user_id : string }.
End VerifyResponse.

Module Card.
Record t := mk {
  user_id : string;
  first_name : option string;
  age : option Z;
  bio : option string;
  residence_id : option string;
  photos : list Photo.t }.
End Card.

(** [{"message": ..., "match": ...}]; the key [match] is written
    [is_match], as the handler's own variable is. *)
Module SwipeResponse.
Record t := mk { message : string; is_match : bool }.
End SwipeResponse.

Module MatchSummary.
Record t := mk {
  match_id : string;
  user_id : string;
  first_name : option string;
  photos : list Photo.t }.
End MatchSummary.

(** ** Authentication: magic links *)

(** The filter of [verify_magic_link]:
    [{"email": email, "token": token, "used": False}]. *)
Definition pending (email token : string) (d : doc Verification.t) : Prop :=
  Verification.email (body d) = email
  /\ Verification.token (body d) = token
  /\ Verification.used (body d) = false.

#[global] Instance pending_dec email token d : Decision (pending email token d).
Proof. unfold pending. apply _. Defined.

(** [{"$set": {"used": True}}]. *)
Definition mark_used (v : Verification.t) : Verification.t :=
  Verification.mk (Verification.email v) (Verification.token v)
    (Verification.purpose v) true (Verification.expires_at v).

Section Auth.
(** [email_validator.validate_email(email, check_deliverability=False)]:
    the domain of a well-formed address, [None] for [EmailNotValidError].
    The library is not part of the repository. *)
Variable validate_email : string -> option string.

Definition is_valid_domain (email : string) : bool :=
  match validate_email email with
  | Some v_domain =>
      let domain := lower v_domain in
      bool_decide (set_Exists
                     (fun d => domain = d \/ endswith domain ("@" +:+ d) = true)
                     ALLOWED_DOMAINS)
      || bool_decide (domain ∈ ALLOWED_DOMAINS)
  | None => false
  end.

(** [Verification(email=..., token=..., purpose=..., expires_at=...)]:
    [purpose] is declared [Literal["login", "signup"]]; [used] defaults to
    [False]. *)
Definition new_Verification (email token purpose : string) (expires_at : Z)
    : M Verification.t :=
  if bool_decide (purpose ∈ ({[ "login"; "signup" ]} : gset string))
  then ret (Verification.mk email token purpose false expires_at)
  else raise ValidationError.

(** [User(email=email)] with the defaults of [schemas.User]. *)
Definition new_User (email : string) : User.t :=
  User.mk email None None true false None false.

(** [token] is the value drawn by [secrets.token_urlsafe(24)] and [now]
    the value of [int(time.time())] in this call. *)
Definition send_magic_link (payload : SendMagicLinkRequest.t)
    (token : string) (now : Z) : M SendMagicLinkResponse.t :=
  let email := lower (SendMagicLinkRequest.email payload) in
  if negb (is_valid_domain email) then
    raise (HTTPException 400
      "Email domain not allowed. Use your student email (polito/unito).")
  else
    let expires_at := (now + MAGIC_TOKEN_TTL)%Z in
    verification <-
      new_Verification email token (SendMagicLinkRequest.purpose payload) expires_at ;;
    create_document c_verification verification ;;;
    ret (SendMagicLinkResponse.mk "Magic link created" token expires_at).

Definition verify_magic_link (payload : VerifyMagicLinkRequest.t) (now : Z)
    : M VerifyResponse.t :=
  let email := lower (VerifyMagicLinkRequest.email payload) in
  if negb (is_valid_domain email) then
    raise (HTTPException 400 "Invalid email")
  else
    recs <- query (get_documents c_verification
              (pending email (VerifyMagicLinkRequest.token payload))) ;;
    match last recs with
    | None => raise (HTTPException 400 "Invalid or used token")
    | Some rec =>
        if (Verification.expires_at (body rec) <? now)%Z then
          raise (HTTPException 400 "Token expired")
        else
          existing <- query (find_one c_user (fun d => User.email (body d) = email)) ;;
          user_id <-
            match existing with
            | Some u => ret (str (_id u))
            | None => create_document c_user (new_User email)
            end ;;
          update_one c_verification (fun d => _id d = _id rec) mark_used ;;;
          ret (VerifyResponse.mk "Verified" user_id)
    end.
End Auth.

(** ** Profiles *)

(** [[{"url": url, "order": idx} for idx, url in enumerate(urls)]]. *)
Definition photos_docs (urls : list string) : list Photo.t :=
  imap (fun idx url => Photo.mk url idx) urls.

(** The banned-word test on the bio, made only when a non-empty bio is given. *)
Definition bio_prohibited (bio : option string) : bool :=
  match bio with
  | Some bio =>
      negb (String.eqb bio "")
      && bool_decide (set_Exists (fun w => contains w (lower bio) = true) BANNED_WORDS)
  | None => false
  end.

(** An integer the BSON encoder accepts: 64 bits, signed. *)
Definition bson_int (z : Z) : bool := (- 2 ^ 63 <=? z)%Z && (z <? 2 ^ 63)%Z.

(** Whether the driver can encode a profile document. The request model
    declares [age: Optional[int]] with no bounds, and Python integers are
    unbounded; the other fields are strings, lists of strings and the clock's
    reading. *)
Definition encodable (p : Profile.t) : bool :=
  match Profile.age p with
  | Some age => bson_int age
  | None => true
  end.

(** The driver encodes a document before it sends the write; a document it
    cannot encode raises [OverflowError] and nothing is written. *)
Definition bson_encode (p : Profile.t) : M unit :=
  if encodable p then ret tt else raise OverflowError.

(** [now] is the value of [int(time.time())] in this call, the clock's
    reading in seconds. The request model declares [photos: List[str]], so
    the [None] guard before the length check never fires and is left out.
    The user record is updated before the profile document is written: when
    the profile write raises, the user update stays. *)
Definition create_or_update_profile (user_id : string)
    (payload : CreateProfileRequest.t) (now : Z) : M string :=
  if bio_prohibited (CreateProfileRequest.bio payload) then
    raise (HTTPException 400 "Bio contains prohibited content")
  else
  let photos := CreateProfileRequest.photos payload in
  if (length photos <? MIN_PHOTOS)%nat || (MAX_PHOTOS <? length photos)%nat then
    raise (HTTPException 400 "Profiles require between 3 and 8 photos")
  else
  match ObjectId user_id with
  | None => raise InvalidId
  | Some obj_id =>
      user <- query (find_one c_user (fun d => _id d = obj_id)) ;;
      match user with
      | None => raise (HTTPException 404 "User not found")
      | Some _ =>
          update_one c_user (fun d => _id d = obj_id)
            (fun u => User.mk (User.email u)
                        (Some (CreateProfileRequest.first_name payload))
                        (CreateProfileRequest.last_name payload)
                        (User.is_active u) (User.is_banned u)
                        (CreateProfileRequest.residence_id payload)
                        (CreateProfileRequest.allow_all_residences payload)) ;;;
          let profile_doc :=
            Profile.mk user_id
              (CreateProfileRequest.bio payload)
              (CreateProfileRequest.age payload)
              (CreateProfileRequest.pronouns payload)
              (CreateProfileRequest.year payload)
              (CreateProfileRequest.program payload)
              (CreateProfileRequest.interests payload)
              (photos_docs (take MAX_PHOTOS photos))
              now in
          existing_profile <-
            query (find_one c_profile (fun d => Profile.user_id (body d) = user_id)) ;;
          match existing_profile with
          | Some p =>
              bson_encode profile_doc ;;;
              update_one c_profile (fun d => _id d = _id p) (fun _ => profile_doc)
          | None =>
              bson_encode profile_doc ;;;
              create_document c_profile profile_doc ;;; ret tt
          end ;;;
          ret "Profile saved"
      end
  end.

(** ** Discovery *)

(** The filter dictionary [discover] builds for [db["profile"].find]:
    [{"user_id": {"$ne": user_id}}], to which the key [residence_id] is added
    when the requester does not allow all residences. *)
Record filter_query := FilterQuery {
  user_id_ne : string;
  residence_id_eq : option (option string) }.

(** MongoDB's equality [{"k": v}] on a document without the key [k]: it
    matches exactly when [v] is null. Profile documents have no
    [residence_id] key. *)
Definition missing_key_matches (v : option string) : Prop := v = None.

Definition profile_matches (q : filter_query) (d : doc Profile.t) : Prop :=
  Profile.user_id (body d) <> user_id_ne q
  /\ match residence_id_eq q with
     | Some v => missing_key_matches v
     | None => True
     end.

#[global] Instance profile_matches_dec q d : Decision (profile_matches q d).
Proof.
  unfold profile_matches, missing_key_matches.
  destruct (residence_id_eq q); apply _.
Defined.

Definition make_card (prof : doc Profile.t) (u : doc User.t) : Card.t :=
  Card.mk (Profile.user_id (body prof))
          (User.first_name (body u))
          (Profile.age (body prof))
          (Profile.bio (body prof))
          (User.residence_id (body u))
          (Profile.photos (body prof)).

(** The loop over the cursor; [cards] is the list built so far. *)
Fixpoint discover_loop (s : store) (swiped_ids : gset string) (limit : nat)
    (cursor : list (doc Profile.t)) (cards : list Card.t) : result (list Card.t) :=
  match cursor with
  | [] => Ok cards
  | prof :: cursor' =>
      if bool_decide (Profile.user_id (body prof) ∈ swiped_ids) then
        discover_loop s swiped_ids limit cursor' cards
      else
        match ObjectId (Profile.user_id (body prof)) with
        | None => Raise InvalidId
        | Some oid =>
            match find_one c_user (fun d => _id d = oid) s with
            | None => discover_loop s swiped_ids limit cursor' cards
            | Some u =>
                if User.is_banned (body u) then
                  discover_loop s swiped_ids limit cursor' cards
                else
                  let cards := cards ++ [make_card prof u] in
                  if (limit <=? length cards)%nat then Ok cards
                  else discover_loop s swiped_ids limit cursor' cards
            end
        end
  end.

(** Lines 189-191: the filter for the requester [user]. *)
Definition discover_filter (user_id : string) (user : doc User.t) : filter_query :=
  FilterQuery user_id
    (if negb (User.allow_all_residences (body user))
     then Some (User.residence_id (body user)) else None).

(** Line 194: the targets of the swipes [user_id] has made. *)
Definition swiped_ids (user_id : string) (s : store) : gset string :=
  list_to_set
    ((fun sw => Swipe.target_id (body sw))
       <$> get_documents c_swipe (fun d => Swipe.swiper_id (body d) = user_id) s).

(** [limit] is declared [Query(20, ge=1, le=50)]: a value outside the range
    is refused before the handler runs. *)
Definition discover (user_id : string) (limit : Z) (s : store) : result (list Card.t) :=
  if ((limit <? 1) || (50 <? limit))%Z then Raise RequestValidationError else
  match ObjectId user_id with
  | None => Raise InvalidId
  | Some oid =>
      match find_one c_user (fun d => _id d = oid) s with
      | None => Raise (HTTPException 404 "User not found")
      | Some user =>
          match find_one c_profile (fun d => Profile.user_id (body d) = user_id) s with
          | None => Raise (HTTPException 400 "Complete your profile first")
          | Some my_profile =>
              let candidates_cursor :=
                take (Z.to_nat (limit * 2))
                     (find c_profile (profile_matches (discover_filter user_id user)) s) in
              discover_loop s (swiped_ids user_id s) (Z.to_nat limit) candidates_cursor []
          end
      end
  end.

(** ** Swipes and matches *)

(** The two filters of [swipe]: a right swipe from [swiper] on [target],
    and the [$or] filter for a match between two users, in either order. *)
Definition right_swipe (swiper target : string) (d : doc Swipe.t) : Prop :=
  Swipe.swiper_id (body d) = swiper
  /\ Swipe.target_id (body d) = target
  /\ Swipe.direction (body d) = "right".

Definition match_between (a b : string) (d : doc Match.t) : Prop :=
  (Match.user_a (body d) = a /\ Match.user_b (body d) = b)
  \/ (Match.user_a (body d) = b /\ Match.user_b (body d) = a).

#[global] Instance right_swipe_dec swiper target d : Decision (right_swipe swiper target d).
Proof. unfold right_swipe. apply _. Defined.

#[global] Instance match_between_dec a b d : Decision (match_between a b d).
Proof. unfold match_between. apply _. Defined.

Definition swipe (user_id : string) (payload : SwipeRequest.t) : M SwipeResponse.t :=
  let target_id := SwipeRequest.target_id payload in
  let direction := SwipeRequest.direction payload in
  if negb (bool_decide (direction ∈ ({[ "left"; "right" ]} : gset string))) then
    raise (HTTPException 400 "Invalid direction")
  else
    create_document c_swipe (Swipe.mk user_id target_id direction) ;;;
    is_match <-
      (if bool_decide (direction = "right") then
         reciprocal <- query (find_one c_swipe (right_swipe target_id user_id)) ;;
         match reciprocal with
         | Some _ =>
             existing <- query (find_one c_match (match_between user_id target_id)) ;;
             match existing with
             | None => create_document c_match (Match.mk user_id target_id) ;;; ret true
             | Some _ => ret true
             end
         | None => ret false
         end
       else ret false) ;;
    ret (SwipeResponse.mk "swiped" is_match).

(** The filter of [list_matches]: the matches [user_id] is part of. *)
Definition match_of (user_id : string) (d : doc Match.t) : Prop :=
  Match.user_a (body d) = user_id \/ Match.user_b (body d) = user_id.

#[global] Instance match_of_dec user_id d : Decision (match_of user_id d).
Proof. unfold match_of. apply _. Defined.

Definition other_id (user_id : string) (m : doc Match.t) : string :=
  if bool_decide (Match.user_a (body m) = user_id)
  then Match.user_b (body m) else Match.user_a (body m).

(** The loop of [list_matches]; [cleaned] is the list built so far. The user
    looked up for the counterpart is used without a test for [None]. *)
Fixpoint list_matches_loop (s : store) (user_id : string)
    (ms : list (doc Match.t)) (cleaned : list MatchSummary.t)
    : result (list MatchSummary.t) :=
  match ms with
  | [] => Ok cleaned
  | m :: ms' =>
      let other_id := other_id user_id m in
      let prof := find_one c_profile (fun d => Profile.user_id (body d) = other_id) s in
      match ObjectId other_id with
      | None => Raise InvalidId
      | Some oid =>
          match find_one c_user (fun d => _id d = oid) s with
          | None => Raise AttributeError
          | Some u =>
              list_matches_loop s user_id ms'
                (cleaned ++
                 [MatchSummary.mk (str (_id m)) other_id
                    (User.first_name (body u))
                    (match prof with
                     | Some p => Profile.photos (body p)
                     | None => []
                     end)])
          end
      end
  end.

Definition list_matches (user_id : string) (s : store) : result (list MatchSummary.t) :=
  let matches := find c_match (match_of user_id) s in
  list_matches_loop s user_id matches [].

(** ** Messages and reports *)

(** The guard shared by [list_messages] and [send_message]: the match exists
    and the caller is one of its two users. *)
Definition find_match_for (user_id match_id : string) (s : store) : result (doc Match.t) :=
  match ObjectId match_id with
  | None => Raise InvalidId
  | Some oid =>
      match find_one c_match (fun d => _id d = oid) s with
      | None => Raise (HTTPException 404 "Match not found")
      | Some m =>
          if bool_decide (user_id ∉ ({[ Match.user_a (body m); Match.user_b (body m) ]} : gset string))
          then Raise (HTTPException 404 "Match not found")
          else Ok m
      end
  end.

(** The messages of the match, each with its [_id] turned into a string. *)
Definition list_messages (user_id match_id : string) (s : store)
    : result (list (string * Message.t)) :=
  match find_match_for user_id match_id s with
  | Raise e => Raise e
  | Ok _ =>
      Ok ((fun m => (str (_id m), body m))
            <$> find c_message (fun d => Message.match_id (body d) = match_id) s)
  end.

(** The handler stores a plain dictionary: [schemas.Message], with its
    [max_length=1000] on [text], is never instantiated. *)
Definition send_message (user_id : string) (payload : MessageRequest.t) : M string :=
  found <- query (find_match_for user_id (MessageRequest.match_id payload)) ;;
  match found with
  | Raise e => raise e
  | Ok _ =>
      create_document c_message
        (Message.mk (MessageRequest.match_id payload) user_id (MessageRequest.text payload)) ;;;
      ret "sent"
  end.

Definition report (user_id : string) (target_user_id target_message_id : option string)
    (reason : string) (details : option string) : M string :=
  if String.eqb reason "" then
    raise (HTTPException 400 "Reason is required")
  else
    create_document c_report
      (Report.mk user_id target_user_id target_message_id reason details) ;;;
    ret "reported".

(** * Specification vocabulary *)

(** The number of match records between two users, in either order. *)
Definition match_count (a b : string) (s : store) : nat :=
  length (filter (match_between a b) (matches s)).

(** The counterpart of [user_id] in the match [m] is a well-formed object
    id under which a user is stored. *)
Definition counterpart_resolves (s : store) (user_id : string) (m : doc Match.t) : Prop :=
  exists oid, ObjectId (other_id user_id m) = Some oid
              /\ is_Some (find_one c_user (fun d => _id d = oid) s).


(** ** Worked scenarios *)

(** A stand-in for [validate_email] in the worked scenarios: the domain is
    the text after the last [@]. *)
Fixpoint after_last_at (s : string) (acc : option string) : option string :=
  match s with
  | EmptyString => acc
  | String c s' =>
      if Ascii.eqb c "@" then after_last_at s' (Some s') else after_last_at s' acc
  end.

Definition example_validate_email (email : string) : option string :=
  after_last_at email None.

(** Signing up: a magic link is sent and verified at once. *)
Definition signed_up (email token : string) (s : store) : store :=
  snd (verify_magic_link example_validate_email
         (VerifyMagicLinkRequest.mk email token) 0
         (snd (send_magic_link example_validate_email
                 (SendMagicLinkRequest.mk email "login") token 0 s))).

(** Alice signs up into the empty store and is stored under [_id] 1; Bob
    follows and is stored under [_id] 3. *)
Definition alice_store : store := signed_up "alice@polito.it" "token-a" empty_store.
Definition alice_bob_store : store := signed_up "bob@unito.it" "token-b" alice_store.

(** A profile request with [n] photos. *)
Definition example_profile (residence_id : option string) (allow_all_residences : bool)
    (n : nat) : CreateProfileRequest.t :=
  CreateProfileRequest.mk "Sam" None residence_id allow_all_residences
    (Some "hello") (Some 20%Z) None None None [] (replicate n "https://img/p.jpg").

(** ** Discovery vocabulary *)

(** The card [discover] makes of a fetched profile, if it makes one: the
    profile is not swiped on yet and its owner is stored and not banned. *)
Definition candidate_card (s : store) (swiped : gset string) (prof : doc Profile.t)
    : option Card.t :=
  if bool_decide (Profile.user_id (body prof) ∈ swiped) then None
  else
    match ObjectId (Profile.user_id (body prof)) with
    | None => None
    | Some oid =>
        match find_one c_user (fun d => _id d = oid) s with
        | None => None
        | Some u => if User.is_banned (body u) then None else Some (make_card prof u)
        end
    end.

(** A fetched profile whose owner id would make [ObjectId] raise. *)
Definition readable (swiped : gset string) (prof : doc Profile.t) : Prop :=
  Profile.user_id (body prof) ∈ swiped \/ is_Some (ObjectId (Profile.user_id (body prof))).

#[global] Instance readable_dec swiped prof : Decision (readable swiped prof).
Proof. unfold readable. apply _. Defined.

(** Following the spec's words (section 4.1), not the code: a valid candidate
    is a profile other than the requester's, in the requester's residence
    unless the requester allows all residences, not swiped on by the
    requester, and owned by a stored user who is not banned. The residence
    is the one recorded on the owner. *)
Definition spec_valid_candidate (user_id : string) (user : doc User.t) (s : store)
    (prof : doc Profile.t) : Prop :=
  Profile.user_id (body prof) <> user_id
  /\ (Profile.user_id (body prof) ∉ swiped_ids user_id s)
  /\ match ObjectId (Profile.user_id (body prof)) with
     | Some oid =>
         match find_one c_user (fun d => _id d = oid) s with
         | Some owner =>
             User.is_banned (body owner) = false
             /\ (User.allow_all_residences (body user) = true
                 \/ User.residence_id (body owner) = User.residence_id (body user))
         | None => False
         end
     | None => False
     end.

#[global] Instance spec_valid_candidate_dec user_id user s prof :
  Decision (spec_valid_candidate user_id user s prof).
Proof.
  unfold spec_valid_candidate.
  destruct (ObjectId (Profile.user_id (body prof))) as [oid|]; [|apply _].
  destruct (find_one c_user (fun d => _id d = oid) s); apply _.
Defined.

(** Following the spec's words (section 4.1): with at least [limit] valid
    candidates in the store [discover] returns at least [limit] cards, and
    with fewer it returns them all. *)
Definition discover_guarantee (user_id : string) (limit : Z) (s : store) : Prop :=
  forall oid user cards,
    ObjectId user_id = Some oid ->
    find_one c_user (fun d => _id d = oid) s = Some user ->
    discover user_id limit s = Ok cards ->
    let valid := filter (spec_valid_candidate user_id user s) (profiles s) in
    (Z.to_nat limit <= length valid -> Z.to_nat limit <= length cards)%nat
    /\ (length valid < Z.to_nat limit -> length cards = length valid)%nat.

(** Saving a profile. *)
Definition with_profile (user_id : string) (payload : CreateProfileRequest.t)
    (s : store) : store :=
  snd (create_or_update_profile user_id payload 0 s).

(** Alice, without a residence, and Bob, in residence ["r1"], each with a
    profile; neither allows all residences. *)
Definition profiled_store : store :=
  with_profile (str 3) (example_profile (Some "r1") false 3)
    (with_profile (str 1) (example_profile None false 3) alice_bob_store).

(** Four users with profiles: Alice (who allows all residences), Bob, Carol
    and Dave, stored under [_id] 1, 3, 5 and 7. Alice has swiped left on Bob
    and on Carol. *)
Definition crowded_store : store :=
  let s := signed_up "dave@unito.it" "token-d"
             (signed_up "carol@polito.it" "token-c" alice_bob_store) in
  let s := with_profile (str 7) (example_profile None false 3)
             (with_profile (str 5) (example_profile None false 3)
                (with_profile (str 3) (example_profile None false 3)
                   (with_profile (str 1) (example_profile None true 3) s))) in
  snd (swipe (str 1) (SwipeRequest.mk (str 5) "left")
         (snd (swipe (str 1) (SwipeRequest.mk (str 3) "left") s))).

(** Alice and Bob, with profiles, have swiped right on each other. *)
Definition matched_store : store :=
  snd (swipe (str 3) (SwipeRequest.mk (str 1) "right")
         (snd (swipe (str 1) (SwipeRequest.mk (str 3) "right") profiled_store))).

(** A text of 1001 characters. *)
Definition long_text : string := string_of_list_ascii (replicate 1001 "a"%char).

(** ** Histories of calls *)

(** The calls that can change the store, with what the environment supplies
    to each ([token] and [now]). [discover], [list_matches] and
    [list_messages] only read. *)
Inductive call :=
| call_send_magic_link (payload : SendMagicLinkRequest.t) (token : string) (now : Z)
| call_verify_magic_link (payload : VerifyMagicLinkRequest.t) (now : Z)
| call_create_or_update_profile (user_id : string) (payload : CreateProfileRequest.t) (now : Z)
| call_swipe (user_id : string) (payload : SwipeRequest.t)
| call_send_message (user_id : string) (payload : MessageRequest.t)
| call_report (user_id : string) (target_user_id target_message_id : option string)
    (reason : string) (details : option string).

Section Histories.
Variable validate_email : string -> option string.

(** The store a call leaves behind, whether it returns or raises. *)
Definition handle (c : call) (s : store) : store :=
  match c with
  | call_send_magic_link payload token now =>
      snd (send_magic_link validate_email payload token now s)
  | call_verify_magic_link payload now =>
      snd (verify_magic_link validate_email payload now s)
  | call_create_or_update_profile user_id payload now =>
      snd (create_or_update_profile user_id payload now s)
  | call_swipe user_id payload => snd (swipe user_id payload s)
  | call_send_message user_id payload => snd (send_message user_id payload s)
  | call_report user_id target_user_id target_message_id reason details =>
      snd (report user_id target_user_id target_message_id reason details s)
  end.

(** Calls handled one after the other. *)
Definition run (calls : list call) (s : store) : store :=
  fold_left (fun s c => handle c s) calls s.
End Histories.

(** A user id under which a user is stored. *)
Definition user_exists (s : store) (user_id : string) : Prop :=
  exists oid, ObjectId user_id = Some oid
              /\ is_Some (find_one c_user (fun d => _id d = oid) s).

(** Two users who have swiped right on each other and share exactly one
    match record. *)
Definition matched_once (a b : string) (s : store) : Prop :=
  is_Some (find_one c_swipe (right_swipe a b) s)
  /\ is_Some (find_one c_swipe (right_swipe b a) s)
  /\ match_count a b s = 1%nat.

(** Every identifier of the store is below the next one to be given out. *)
Definition store_ok (s : store) : Prop :=
  forall A (c : collection A), Forall (fun d => (_id d < next_id s)%N) (db c s).

(** A handler whose final store, returned or raised from, is always related
    to the store it started in. *)
Definition respects (R : relation store) {A} (m : M A) : Prop :=
  forall s, R s (snd (m s)).

(** The swipe and match collections are the same in both stores. *)
Definition same_swipes_matches (s s' : store) : Prop :=
  swipes s' = swipes s /\ matches s' = matches s.

(** Fresh identifiers stay fresh. *)
Definition keeps_ok (s s' : store) : Prop := store_ok s -> store_ok s'.

(** The two collections [swipe] writes to. *)
Definition swipe_or_match {A} (c : collection A) : bool :=
  match c with
  | c_swipe | c_match => true
  | _ => false
  end.

(** No two id strings share more than one match record. *)
Definition at_most_one_match (s : store) : Prop :=
  forall a b, (match_count a b s <= 1)%nat.


(** ** Further vocabulary *)

(** Every match record is backed by a right swipe in each direction between
    its two users. *)
Definition backed_by_swipes (s : store) : Prop :=
  Forall (fun m =>
            is_Some (find_one c_swipe
                       (right_swipe (Match.user_a (body m)) (Match.user_b (body m))) s)
            /\ is_Some (find_one c_swipe
                          (right_swipe (Match.user_b (body m)) (Match.user_a (body m))) s))
         (matches s).


(** The collections the handlers only ever append to. *)
Definition append_only {A} (c : collection A) : bool :=
  match c with
  | c_swipe | c_match | c_message | c_report => true
  | _ => false
  end.

(** From [s] to [s'] no document was removed or moved: in every collection
    the identifiers of [s] are still there, in front and in order, and the
    swipes, matches, messages and reports of [s] are there unchanged. *)
Definition grows (s s' : store) : Prop :=
  (forall A (c : collection A), (_id <$> db c s) `prefix_of` (_id <$> db c s'))
  /\ swipes s `prefix_of` swipes s'
  /\ matches s `prefix_of` matches s'
  /\ messages s `prefix_of` messages s'
  /\ reports s `prefix_of` reports s'.


(** What identifies a stored user and is set by no profile update: the
    identifier, the address and the two account flags. *)
Definition identity (u : doc User.t) : N * string * bool * bool :=
  (_id u, User.email (body u), User.is_active (body u), User.is_banned (body u)).

(** The users of [s'] are those of [s], each with its identity. *)
Definition same_identities (s s' : store) : Prop :=
  identity <$> users s' = identity <$> users s.

(** A collection other than [user]. *)
Definition not_user {A} (c : collection A) : bool :=
  match c with
  | c_user => false
  | _ => true
  end.

(** An update of a document that, on a user, keeps the identity. *)
Definition keeps_identity {A} (c : collection A) : (A -> A) -> Prop :=
  match c in collection A return (A -> A) -> Prop with
  | c_user => fun f => forall i u, identity (Doc i (f u)) = identity (Doc i u)
  | _ => fun _ => True
  end.

(** No two stored users share an address. *)
Definition unique_emails (s : store) : Prop :=
  NoDup ((fun u => User.email (body u)) <$> users s).


(** The profile document [create_or_update_profile] builds from a request
    with at most [MAX_PHOTOS] photos. *)
Definition profile_doc (user_id : string) (payload : CreateProfileRequest.t) (now : Z)
    : Profile.t :=
  Profile.mk user_id
    (CreateProfileRequest.bio payload)
    (CreateProfileRequest.age payload)
    (CreateProfileRequest.pronouns payload)
    (CreateProfileRequest.year payload)
    (CreateProfileRequest.program payload)
    (CreateProfileRequest.interests payload)
    (photos_docs (CreateProfileRequest.photos payload))
    now.

(** The user fields a profile save sets, on a stored user. *)
Definition profile_user (payload : CreateProfileRequest.t) (u : User.t) : User.t :=
  User.mk (User.email u)
    (Some (CreateProfileRequest.first_name payload))
    (CreateProfileRequest.last_name payload)
    (User.is_active u) (User.is_banned u)
    (CreateProfileRequest.residence_id payload)
    (CreateProfileRequest.allow_all_residences payload).

(** A gallery as the handler stores it: 3 to 8 photos, each with its
    position as [order]. *)
Definition gallery_ok (p : Profile.t) : Prop :=
  (MIN_PHOTOS <= length (Profile.photos p) <= MAX_PHOTOS)%nat
  /\ Photo.order <$> Profile.photos p = seq 0 (length (Profile.photos p)).

(** The profiles of [s'] are those of [s]. *)
Definition same_profiles (s s' : store) : Prop := profiles s' = profiles s.

(** A collection other than [profile]. *)
Definition not_profile {A} (c : collection A) : bool :=
  match c with
  | c_profile => false
  | _ => true
  end.

(** Profiles are stored one per [user_id] string, under distinct
    identifiers that the store has already given out. *)
Definition profiles_ok (s : store) : Prop :=
  store_ok s
  /\ NoDup (_id <$> profiles s)
  /\ NoDup ((fun p => Profile.user_id (body p)) <$> profiles s).

(** Every profile names a stored user. *)
Definition owners_stored (s : store) : Prop :=
  Forall (fun p => user_exists s (Profile.user_id (body p))) (profiles s).


(** The summary [list_matches] makes of one match of [user_id], when the
    counterpart is a stored user: the counterpart's first name and the
    photos of the counterpart's first profile, none if there is no profile. *)
Definition match_summary (s : store) (user_id : string) (m : doc Match.t)
    : option MatchSummary.t :=
  match ObjectId (other_id user_id m) with
  | None => None
  | Some oid =>
      match find_one c_user (fun d => _id d = oid) s with
      | None => None
      | Some u =>
          Some (MatchSummary.mk (str (_id m)) (other_id user_id m)
                  (User.first_name (body u))
                  (match find_one c_profile
                           (fun d => Profile.user_id (body d) = other_id user_id m) s with
                   | Some p => Profile.photos (body p)
                   | None => []
                   end))
      end
  end.

(** ** Partial saves, unknown counterparts and two spellings of an identifier *)




(** Alice and Bob have signed up. A caller who passes ["ghost"] as its
    [user_id] swipes right on Alice, and Alice on ["ghost"]: [swipe] looks up
    neither id, and a match record now joins Alice and ["ghost"]. *)
Definition ghosted_store : store :=
  snd (swipe (str 1) (SwipeRequest.mk "ghost" "right")
         (snd (swipe "ghost" (SwipeRequest.mk (str 1) "right") alice_bob_store))).

(** Following the spec's words (swipe symmetry): after [A] has swiped right
    on [B] and [B] on [A], exactly one match record joins the two and each
    finds the other in [list_matches]. *)
Definition swipe_symmetry_claim (A B : string) (s : store) : Prop :=
  let s2 := snd (swipe B (SwipeRequest.mk A "right")
                   (snd (swipe A (SwipeRequest.mk B "right") s))) in
  match_count A B s2 = 1%nat
  /\ (exists la, list_matches A s2 = Ok la /\ B ∈ MatchSummary.user_id <$> la)
  /\ (exists lb, list_matches B s2 = Ok lb /\ A ∈ MatchSummary.user_id <$> lb).

(** Six users sign up; the sixth, Frank, is stored under [_id] 11, printed
    ["00000000000000000000000b"]. *)
Definition six_users_store : store :=
  signed_up "frank@unito.it" "token-f"
    (signed_up "erin@polito.it" "token-e"
       (signed_up "dave@unito.it" "token-d"
          (signed_up "carol@polito.it" "token-c" alice_bob_store))).

(** Frank's identifier with its hex letter in upper case. [ObjectId] reads
    both spellings as the same identifier; as strings they differ. *)
Definition frank_upper : string := "00000000000000000000000B".

(** Alice saves a profile; Frank saves one under each spelling of his
    identifier; Alice swipes left on Frank, spelled in upper case. *)
Definition two_spellings_store : store :=
  snd (swipe (str 1) (SwipeRequest.mk frank_upper "left")
         (with_profile frank_upper (example_profile None false 3)
            (with_profile (str 11) (example_profile None false 3)
               (with_profile (str 1) (example_profile None false 3) six_users_store)))).

(** Two id strings that [ObjectId] reads as the same identifier: two
    spellings of one user's id. *)
Definition same_user (a b : string) : Prop :=
  exists oid, ObjectId a = Some oid /\ ObjectId b = Some oid.

(** Following the spec's words (section 4.1): no card returned by [discover]
    is for the requester's own profile. *)
Definition never_own_profile (user_id : string) (limit : Z) (s : store) : Prop :=
  forall cards,
    discover user_id limit s = Ok cards ->
    Forall (fun card => ~ same_user (Card.user_id card) user_id) cards.

(** Following the spec's words (section 4.1): no card returned by [discover]
    is for a user the requester has already swiped on. *)
Definition never_swiped_on (user_id : string) (limit : Z) (s : store) : Prop :=
  forall cards,
    discover user_id limit s = Ok cards ->
    Forall (fun card =>
              forall sw, sw ∈ swipes s ->
                Swipe.swiper_id (body sw) = user_id ->
                ~ same_user (Swipe.target_id (body sw)) (Card.user_id card)) cards.

(** An id of 24 characters with blanks between its bytes: [ObjectId] accepts
    it, as 8 bytes. *)
Definition blank_id : string := "00 00 00 00 00 00 00 01 ".

(** * Properties *)

(** ** Object identifiers *)

Lemma hex_val_digit d : (d < 16)%N -> hex_val (hex_digit d) = Some d.
Proof.
  intros Hd. rewrite <- (N2Nat.id d).
  assert (N.to_nat d < 16)%nat as Hk by lia.
  revert Hk. generalize (N.to_nat d). intros k Hk.
  do 16 (destruct k as [|k]; [reflexivity|]). lia.
Qed.

Lemma hex_str_length k n acc :
  String.length (hex_str k n acc) = (k + String.length acc)%nat.
Proof.
  revert n acc. induction k as [|k IH]; intros n acc; [done|].
  cbn [hex_str]. rewrite IH. simpl. lia.
Qed.

Lemma hex_fold_str k n acc a :
  hex_fold (hex_str k n acc) a = hex_fold acc (a * 16 ^ N.of_nat k + n mod 16 ^ N.of_nat k)%N.
Proof.
  revert n acc. induction k as [|k IH]; intros n acc.
  - cbn [hex_str]. f_equal. change (16 ^ N.of_nat 0)%N with 1%N. rewrite N.mod_1_r. lia.
  - cbn [hex_str]. rewrite IH. cbn [hex_fold].
    rewrite hex_val_digit by (apply N.mod_lt; lia). f_equal.
    rewrite Nat2N.inj_succ, N.pow_succ_r'.
    rewrite N.Div0.mod_mul_r. ring.
Qed.

Lemma hex_val_not_space c d : hex_val c = Some d -> is_space c = false.
Proof.
  unfold hex_val, is_space. cbv zeta. generalize (N_of_ascii c). intros n.
  destruct (N.leb_spec 48 n), (N.leb_spec n 57), (N.leb_spec 97 n),
    (N.leb_spec n 102), (N.leb_spec 65 n), (N.leb_spec n 70);
    cbn [andb]; try discriminate; intros _;
    destruct (N.eqb_spec n 32), (N.leb_spec 9 n), (N.leb_spec n 13);
    cbn [andb orb]; try reflexivity; lia.
Qed.

(** On a string of [2 * k] hexadecimal digits, [fromhex] gives the [k] bytes
    of the number the digits denote. *)
Lemma fromhex_hex_fold k : forall s a v,
  String.length s = (2 * k)%nat -> hex_fold s a = Some v ->
  exists bytes, fromhex s = Some bytes /\ length bytes = k /\
    fold_left (fun acc b => 256 * acc + b)%N bytes a = v.
Proof.
  induction k as [|k IH]; intros s a v Hlen Hv.
  - destruct s; [|discriminate]. exists []. cbn in Hv. injection Hv as <-. done.
  - destruct s as [|c1 [|c2 s]]; [discriminate| simpl in Hlen; lia |].
    cbn [hex_fold] in Hv.
    destruct (hex_val c1) as [d1|] eqn:H1; [|discriminate].
    destruct (hex_val c2) as [d2|] eqn:H2; [|discriminate].
    destruct (IH s (16 * (16 * a + d1) + d2)%N v) as (bytes & Hb & Hl & Hf);
      [simpl in Hlen; lia | exact Hv |].
    exists ((16 * d1 + d2)%N :: bytes). cbn [fromhex].
    rewrite (hex_val_not_space _ _ H1), H1, H2, Hb. split; [done|].
    split; [simpl; lia|]. cbn [fold_left]. rewrite <- Hf. f_equal. lia.
Qed.

(** Parsing the printed form of an identifier gives the identifier back. *)
Lemma ObjectId_str oid : (oid < 2 ^ 96)%N -> ObjectId (str oid) = Some oid.
Proof.
  intros Hoid. unfold ObjectId, str. rewrite hex_str_length. cbn [Nat.add String.length Nat.eqb].
  destruct (fromhex_hex_fold 12 (hex_str 24 oid "") 0%N oid) as (bytes & -> & Hl & Hf).
  - by rewrite hex_str_length.
  - rewrite hex_fold_str. cbn [hex_fold]. f_equal.
    change (16 ^ N.of_nat 24)%N with (2 ^ 96)%N. rewrite N.mod_small by done. lia.
  - f_equal. unfold oid_of_bytes. rewrite Hf, Hl. cbn [Nat.sub N.of_nat]. lia.
Qed.

(** ** Queries *)

Section QueryFacts.
Context {A : Type} (c : collection A).
Context (P : doc A -> Prop) `{!forall d, Decision (P d)}.

Lemma head_filter_Some (l : list (doc A)) d :
  head (filter P l) = Some d -> d ∈ l /\ P d.
Proof.
  induction l as [|x l IH]; [discriminate|].
  rewrite filter_cons. destruct (decide (P x)); simpl.
  - intros [= ->]. split; [left|done].
  - intros Hh. destruct (IH Hh). split; [by right|done].
Qed.

Lemma head_filter_None (l : list (doc A)) :
  head (filter P l) = None <-> Forall (fun d => ~ P d) l.
Proof.
  induction l as [|x l IH]; [by split; [constructor|]|].
  rewrite filter_cons. destruct (decide (P x)); simpl.
  - split; [discriminate|]. intros Hf. by inversion Hf.
  - rewrite IH. split; [by constructor|]. intros Hf. by inversion Hf.
Qed.

Lemma head_filter_is_Some (l : list (doc A)) d :
  d ∈ l -> P d -> is_Some (head (filter P l)).
Proof.
  intros Hin HP. destruct (head (filter P l)) eqn:E; [eauto|].
  apply head_filter_None in E. rewrite Forall_forall in E.
  destruct (E d Hin HP).
Qed.

Lemma find_one_Some s d : find_one c P s = Some d -> d ∈ db c s /\ P d.
Proof. apply head_filter_Some. Qed.

Lemma find_one_None s : find_one c P s = None <-> Forall (fun d => ~ P d) (db c s).
Proof. apply head_filter_None. Qed.

Lemma find_one_is_Some s d : d ∈ db c s -> P d -> is_Some (find_one c P s).
Proof. apply head_filter_is_Some. Qed.
End QueryFacts.

(** ** Messaging *)

Lemma find_match_for_outsider s user_id match_id oid m :
  ObjectId match_id = Some oid ->
  find_one c_match (fun d => _id d = oid) s = Some m ->
  user_id <> Match.user_a (body m) ->
  user_id <> Match.user_b (body m) ->
  find_match_for user_id match_id s = Raise (HTTPException 404 "Match not found").
Proof.
  intros Hid Hm Ha Hb. unfold find_match_for. rewrite Hid, Hm.
  rewrite bool_decide_true; [reflexivity|].
  rewrite elem_of_union, !elem_of_singleton. tauto.
Qed.

Lemma find_match_for_participant s user_id match_id oid m :
  ObjectId match_id = Some oid ->
  find_one c_match (fun d => _id d = oid) s = Some m ->
  user_id = Match.user_a (body m) \/ user_id = Match.user_b (body m) ->
  find_match_for user_id match_id s = Ok m.
Proof.
  intros Hid Hm Hab. unfold find_match_for. rewrite Hid, Hm.
  rewrite bool_decide_false; [reflexivity|].
  rewrite elem_of_union, !elem_of_singleton. tauto.
Qed.

(** C8. A caller who is neither of the two users of an existing match gets
    the 404 "Match not found" from both [list_messages] and [send_message],
    and [send_message] leaves the store as it was: no message is appended. *)
Theorem messaging_outsider_not_found s user_id match_id oid m text :
  ObjectId match_id = Some oid ->
  find_one c_match (fun d => _id d = oid) s = Some m ->
  user_id <> Match.user_a (body m) ->
  user_id <> Match.user_b (body m) ->
  list_messages user_id match_id s = Raise (HTTPException 404 "Match not found")
  /\ send_message user_id (MessageRequest.mk match_id text) s
     = (Raise (HTTPException 404 "Match not found"), s).
Proof.
  intros Hid Hm Ha Hb.
  pose proof (find_match_for_outsider s user_id match_id oid m Hid Hm Ha Hb) as Hf.
  split.
  - unfold list_messages. by rewrite Hf.
  - unfold send_message, bind, query, raise. simpl. by rewrite Hf.
Qed.

Lemma messaging_outsider_not_found_witness :
  list_messages (str 5) (str 8) matched_store = Raise (HTTPException 404 "Match not found")
  /\ send_message (str 5) (MessageRequest.mk (str 8) "hi") matched_store
     = (Raise (HTTPException 404 "Match not found"), matched_store).
Proof.
  apply (messaging_outsider_not_found matched_store (str 5) (str 8) 8%N
           (Doc 8%N (Match.mk (str 3) (str 1))) "hi").
  - vm_compute. reflexivity.
  - vm_compute. reflexivity.
  - vm_compute. discriminate.
  - vm_compute. discriminate.
Defined.

(** A participant's message is stored whatever its length. *)
Lemma send_message_participant s user_id match_id oid m text :
  ObjectId match_id = Some oid ->
  find_one c_match (fun d => _id d = oid) s = Some m ->
  user_id = Match.user_a (body m) \/ user_id = Match.user_b (body m) ->
  exists s',
    send_message user_id (MessageRequest.mk match_id text) s = (Ok "sent", s')
    /\ messages s' = messages s ++ [Doc (next_id s) (Message.mk match_id user_id text)].
Proof.
  intros Hid Hm Hab.
  pose proof (find_match_for_participant s user_id match_id oid m Hid Hm Hab) as Hf.
  unfold send_message, bind, query, create_document, insert_one, ret. simpl.
  rewrite Hf. simpl. eexists. split; reflexivity.
Qed.

(** C6, at the failing input. Alice is a participant of her match with Bob;
    her message of 1001 characters is stored and answered with "sent". *)
Theorem send_message_accepts_long_text :
  String.length long_text = 1001%nat
  /\ find_match_for (str 1) (str 8) matched_store
     = Ok (Doc 8%N (Match.mk (str 3) (str 1)))
  /\ exists s',
       send_message (str 1) (MessageRequest.mk (str 8) long_text) matched_store
       = (Ok "sent", s')
       /\ messages s' = [Doc 9%N (Message.mk (str 8) (str 1) long_text)].
Proof.
  split; [vm_compute; reflexivity|]. split; [vm_compute; reflexivity|].
  eexists. split; vm_compute; reflexivity.
Qed.

(** ** Swipes *)

Lemma direction_right_ok :
  bool_decide ("right" ∈ ({[ "left"; "right" ]} : gset string)) = true.
Proof. apply bool_decide_eq_true. rewrite elem_of_union, !elem_of_singleton. by right. Qed.

Lemma direction_left_ok :
  bool_decide ("left" ∈ ({[ "left"; "right" ]} : gset string)) = true.
Proof. apply bool_decide_eq_true. rewrite elem_of_union, !elem_of_singleton. by left. Qed.

(** A right swipe, step by step: the swipe is recorded, then the reciprocal
    swipe and the existing match are looked up in the store so extended. *)
Lemma swipe_right s u t :
  swipe u (SwipeRequest.mk t "right") s =
    let s1 := snd (create_document c_swipe (Swipe.mk u t "right") s) in
    match find_one c_swipe (right_swipe t u) s1 with
    | Some _ =>
        match find_one c_match (match_between u t) s1 with
        | None => (Ok (SwipeResponse.mk "swiped" true),
                   snd (create_document c_match (Match.mk u t) s1))
        | Some _ => (Ok (SwipeResponse.mk "swiped" true), s1)
        end
    | None => (Ok (SwipeResponse.mk "swiped" false), s1)
    end.
Proof.
  unfold swipe. cbn [SwipeRequest.target_id SwipeRequest.direction].
  rewrite direction_right_ok. cbn [negb].
  rewrite bool_decide_true by reflexivity.
  unfold bind, query, ret, create_document, bind, insert_one, ret. cbn -[find_one].
  destruct (find_one c_swipe _ _); [|reflexivity].
  destruct (find_one c_match _ _); reflexivity.
Qed.

Lemma swipe_left s u t :
  swipe u (SwipeRequest.mk t "left") s =
    (Ok (SwipeResponse.mk "swiped" false),
     snd (create_document c_swipe (Swipe.mk u t "left") s)).
Proof.
  unfold swipe. cbn [SwipeRequest.target_id SwipeRequest.direction].
  rewrite direction_left_ok. cbn [negb].
  rewrite bool_decide_false by discriminate.
  reflexivity.
Qed.

Lemma match_count_0 a b s :
  match_count a b s = 0%nat <-> find_one c_match (match_between a b) s = None.
Proof.
  unfold match_count, find_one, find. simpl.
  destruct (filter _ _); simpl; split; congruence.
Qed.

(** The reciprocal lookup sees the swipe the call has just recorded. *)
Lemma right_swipe_recorded s u t :
  is_Some (find_one c_swipe (right_swipe u t)
             (snd (create_document c_swipe (Swipe.mk u t "right") s))).
Proof.
  eapply find_one_is_Some with (d := Doc (next_id s) (Swipe.mk u t "right")).
  - simpl. apply elem_of_app. right. apply list_elem_of_singleton. reflexivity.
  - done.
Qed.

(** C9. A user's right swipe on themselves reports a match, because the
    reciprocal lookup finds the swipe this very call recorded; and when no
    match of the user with themselves is stored yet, the call stores one
    whose two users are both the caller. *)
Theorem self_swipe_reports_match s u :
  fst (swipe u (SwipeRequest.mk u "right") s) = Ok (SwipeResponse.mk "swiped" true)
  /\ swipes (snd (swipe u (SwipeRequest.mk u "right") s))
     = swipes s ++ [Doc (next_id s) (Swipe.mk u u "right")]
  /\ (match_count u u s = 0%nat ->
      matches (snd (swipe u (SwipeRequest.mk u "right") s))
      = matches s ++ [Doc (N.succ (next_id s)) (Match.mk u u)]).
Proof.
  rewrite swipe_right. cbv zeta.
  destruct (right_swipe_recorded s u u) as [r ->].
  destruct (find_one c_match _ _) eqn:E.
  - repeat split; try reflexivity.
    intros H0. apply match_count_0 in H0.
    unfold find_one, find in *. simpl in *. congruence.
  - repeat split; reflexivity.
Qed.

Lemma self_swipe_reports_match_witness :
  matches (snd (swipe (str 7) (SwipeRequest.mk (str 7) "right") empty_store))
  = [Doc 1%N (Match.mk (str 7) (str 7))].
Proof.
  apply (self_swipe_reports_match empty_store (str 7)). reflexivity.
Defined.

(** ** Match listing *)

Lemma list_matches_loop_ok s user_id ms cleaned :
  Forall (counterpart_resolves s user_id) ms ->
  exists l,
    list_matches_loop s user_id ms cleaned = Ok (cleaned ++ l)
    /\ MatchSummary.user_id <$> l = other_id user_id <$> ms.
Proof.
  intros Hall. revert cleaned.
  induction Hall as [|m ms [oid [Hoid [u Hu]]] _ IH]; intros cleaned.
  - exists []. by rewrite app_nil_r.
  - cbn [list_matches_loop]. rewrite Hoid, Hu.
    destruct (IH (cleaned ++
      [MatchSummary.mk (str (_id m)) (other_id user_id m) (User.first_name (body u))
         match find_one c_profile
                 (fun d => Profile.user_id (body d) = other_id user_id m) s with
         | Some p => Profile.photos (body p)
         | None => []
         end])) as [l [Hl Hmap]].
    eexists (_ :: l). rewrite Hl. split.
    + by rewrite <- app_assoc.
    + rewrite !fmap_cons. by rewrite Hmap.
Qed.


#[local] Instance counterpart_resolves_dec s user_id m :
  Decision (counterpart_resolves s user_id m).
Proof.
  unfold counterpart_resolves.
  destruct (ObjectId (other_id user_id m)) as [oid|].
  - destruct (find_one c_user (fun d => _id d = oid) s) eqn:E.
    + left. eauto.
    + right. intros [o [[= <-] [u Hu]]]. congruence.
  - right. intros [o [[=] _]].
Qed.



(** ** Profiles *)

Section UpdateFacts.
Context {A : Type}.
Context (P : doc A -> Prop) `{!forall d, Decision (P d)}.

End UpdateFacts.

Lemma take_all {A} (l : list A) n : (length l <= n)%nat -> take n l = l.
Proof. apply firstn_all2. Qed.





(** ** Discovery *)

Lemma discover_loop_Ok s swiped limit cursor cards out :
  discover_loop s swiped limit cursor cards = Ok out ->
  exists new,
    out = cards ++ new
    /\ Forall (fun card => exists prof,
                 prof ∈ cursor /\ candidate_card s swiped prof = Some card) new.
Proof.
  revert cards. induction cursor as [|prof cursor IH]; intros cards.
  - intros [= <-]. exists []. by rewrite app_nil_r.
  - cbn [discover_loop]. cbv zeta.
    assert (forall c, discover_loop s swiped limit cursor c = Ok out ->
              exists new, out = c ++ new
                /\ Forall (fun card => exists p,
                     p ∈ prof :: cursor /\ candidate_card s swiped p = Some card) new)
      as IH'.
    { intros c Hc. destruct (IH c Hc) as [new [-> Hnew]]. exists new. split; [done|].
      eapply Forall_impl; [exact Hnew|]. intros card [p [Hp Hcard]].
      exists p. split; [by right|done]. }
    destruct (bool_decide (Profile.user_id (body prof) ∈ swiped)) eqn:Esw; [by apply IH'|].
    destruct (ObjectId (Profile.user_id (body prof))) as [oid|] eqn:Eoid; [|discriminate].
    destruct (find_one c_user (fun d => _id d = oid) s) as [u|] eqn:Eu; [|by apply IH'].
    destruct (User.is_banned (body u)) eqn:Eban; [by apply IH'|].
    assert (candidate_card s swiped prof = Some (make_card prof u)) as Hcard.
    { unfold candidate_card. by rewrite Esw, Eoid, Eu, Eban. }
    destruct (limit <=? length (cards ++ [make_card prof u]))%nat.
    + intros [= <-]. exists [make_card prof u]. split; [done|].
      constructor; [|constructor]. exists prof. split; [left|done].
    + intros Hc. destruct (IH' _ Hc) as [new [-> Hnew]].
      exists (make_card prof u :: new). split; [by rewrite <- app_assoc|].
      constructor; [|done]. exists prof. split; [left|done].
Qed.

Lemma take_snoc_full {A} (l : list A) x k n :
  n = (length l + 1)%nat -> take n (l ++ x :: k) = l ++ [x].
Proof.
  intros ->. replace (l ++ x :: k) with ((l ++ [x]) ++ k) by by rewrite <- app_assoc.
  rewrite take_app_le by (rewrite length_app; simpl; lia).
  apply firstn_all2. rewrite length_app. simpl. lia.
Qed.

Lemma discover_loop_page s swiped limit cursor cards :
  (length cards < limit)%nat ->
  Forall (readable swiped) cursor ->
  discover_loop s swiped limit cursor cards
  = Ok (take limit (cards ++ omap (candidate_card s swiped) cursor)).
Proof.
  intros Hlen Hall. revert cards Hlen.
  induction Hall as [|prof cursor Hprof _ IH]; intros cards Hlen.
  - cbn. rewrite app_nil_r. by rewrite firstn_all2 by lia.
  - cbn [discover_loop omap list_omap]. cbv zeta. unfold candidate_card at 1.
    destruct (bool_decide (Profile.user_id (body prof) ∈ swiped)) eqn:Esw; [by apply IH|].
    destruct (ObjectId (Profile.user_id (body prof))) as [oid|] eqn:Eoid.
    2:{ destruct Hprof as [Hin|[? ?]]; [|congruence].
        apply bool_decide_eq_false in Esw. done. }
    destruct (find_one c_user (fun d => _id d = oid) s) as [u|] eqn:Eu; [|by apply IH].
    destruct (User.is_banned (body u)) eqn:Eban; [by apply IH|].
    destruct (limit <=? length (cards ++ [make_card prof u]))%nat eqn:El.
    + apply Nat.leb_le in El. rewrite length_app in El. simpl in El.
      by rewrite take_snoc_full by lia.
    + apply Nat.leb_gt in El.
      rewrite IH by done. by rewrite <- app_assoc.
Qed.

Lemma candidate_card_Some s swiped prof card :
  candidate_card s swiped prof = Some card ->
  (Profile.user_id (body prof) ∉ swiped)
  /\ exists oid u,
       ObjectId (Profile.user_id (body prof)) = Some oid
       /\ find_one c_user (fun d => _id d = oid) s = Some u
       /\ User.is_banned (body u) = false
       /\ card = make_card prof u.
Proof.
  unfold candidate_card.
  destruct (bool_decide _) eqn:Esw; [discriminate|].
  destruct (ObjectId _) as [oid|] eqn:Eoid; [|discriminate].
  destruct (find_one _ _ _) as [u|] eqn:Eu; [|discriminate].
  destruct (User.is_banned (body u)) eqn:Eban; [discriminate|].
  intros [= <-]. split; [by apply bool_decide_eq_false in Esw|].
  exists oid, u. done.
Qed.

Lemma swiped_ids_spec user_id s target :
  target ∈ swiped_ids user_id s
  <-> exists sw, sw ∈ swipes s
                 /\ Swipe.swiper_id (body sw) = user_id
                 /\ Swipe.target_id (body sw) = target.
Proof.
  unfold swiped_ids, get_documents, find. simpl.
  rewrite elem_of_list_to_set, list_elem_of_fmap. split.
  - intros [sw [-> Hsw]]. apply list_elem_of_filter in Hsw as [Hq Hin]. eauto.
  - intros [sw [Hin [Hq Ht]]]. exists sw. split; [done|].
    apply list_elem_of_filter. done.
Qed.

(** C4, as the code has it. Identifiers are compared as the strings the
    callers gave: no card returned by [discover] carries the [user_id]
    string of the request, none carries the [target_id] string of a swipe
    stored under that [user_id] string, whatever its direction, and every
    card's owner is a stored user who is not banned. *)
Theorem discover_exclusions s user_id limit cards :
  discover user_id limit s = Ok cards ->
  Forall (fun card =>
            Card.user_id card <> user_id
            /\ (forall sw, sw ∈ swipes s ->
                  Swipe.swiper_id (body sw) = user_id ->
                  Swipe.target_id (body sw) <> Card.user_id card)
            /\ exists oid u,
                 ObjectId (Card.user_id card) = Some oid
                 /\ find_one c_user (fun d => _id d = oid) s = Some u
                 /\ User.is_banned (body u) = false) cards.
Proof.
  unfold discover.
  destruct (_ || _)%Z; [discriminate|].
  destruct (ObjectId user_id) as [oid|]; [|discriminate].
  destruct (find_one c_user _ s) as [user|]; [|discriminate].
  destruct (find_one c_profile _ s) as [my_profile|]; [|discriminate].
  intros Hloop. apply discover_loop_Ok in Hloop as [new [-> Hnew]]. simpl.
  eapply Forall_impl; [exact Hnew|]. intros card [prof [Hin Hcard]].
  apply candidate_card_Some in Hcard as [Hsw [o [u [Ho [Hu [Hban ->]]]]]].
  apply subseteq_take in Hin. apply list_elem_of_filter in Hin as [[Hne _] _].
  split; [exact Hne|]. split.
  - intros sw Hsin Hswiper Htarget. apply Hsw. apply swiped_ids_spec. eauto.
  - exists o, u. done.
Qed.

Lemma discover_exclusions_witness :
  Forall (fun card =>
            Card.user_id card <> str 1
            /\ (forall sw, sw ∈ swipes profiled_store ->
                  Swipe.swiper_id (body sw) = str 1 ->
                  Swipe.target_id (body sw) <> Card.user_id card)
            /\ exists oid u,
                 ObjectId (Card.user_id card) = Some oid
                 /\ find_one c_user (fun d => _id d = oid) profiled_store = Some u
                 /\ User.is_banned (body u) = false)
         [Card.mk (str 3) (Some "Sam") (Some 20%Z) (Some "hello") (Some "r1")
            (photos_docs (replicate 3 "https://img/p.jpg"))].
Proof.
  apply (discover_exclusions profiled_store (str 1) 20). vm_compute. reflexivity.
Defined.

(** C4, as the specification words it, fails between two spellings of one
    identifier. Frank, stored under [_id] 11, has a profile under each
    spelling, and Alice has swiped left on Frank spelled in upper case.
    [discover] for Frank under the lower-case spelling returns Alice's card
    and the card of his own upper-case profile; [discover] for Alice returns
    the card of Frank's lower-case profile, a user she has swiped on. *)
Lemma discover_exclusions_counterexample :
  (exists cards,
     discover (str 11) 20 two_spellings_store = Ok cards
     /\ Card.user_id <$> cards = [str 1; frank_upper])
  /\ ~ never_own_profile (str 11) 20 two_spellings_store
  /\ (exists cards,
        discover (str 1) 20 two_spellings_store = Ok cards
        /\ Card.user_id <$> cards = [str 11])
  /\ ~ never_swiped_on (str 1) 20 two_spellings_store.
Proof.
  split; [eexists; split; vm_compute; reflexivity|].
  split.
  { intros Hown.
    destruct (discover (str 11) 20 two_spellings_store) as [cards|e] eqn:E;
      [|vm_compute in E; discriminate].
    pose proof (Hown cards E) as Hall. vm_compute in E. injection E as <-.
    inversion Hall as [|? ? _ Hrest]. inversion Hrest as [|? ? Hcard _].
    apply Hcard. exists 11%N. split; vm_compute; reflexivity. }
  split; [eexists; split; vm_compute; reflexivity|].
  intros Hsw.
  destruct (discover (str 1) 20 two_spellings_store) as [cards|e] eqn:E;
    [|vm_compute in E; discriminate].
  pose proof (Hsw cards E) as Hall. vm_compute in E. injection E as <-.
  inversion Hall as [|? ? Hcard _].
  apply (Hcard (Doc 15%N (Swipe.mk (str 1) frank_upper "left"))).
  - vm_compute. apply list_elem_of_singleton. reflexivity.
  - reflexivity.
  - exists 11%N. split; vm_compute; reflexivity.
Qed.

(** C3, as the code has it. [discover] reads only the first [2 * limit]
    profiles its filter matches and returns the cards of the first [limit]
    of them that are not swiped on and whose owner is stored and not banned:
    [limit] cards when that page holds at least [limit] such profiles, and
    all of them when it holds fewer. *)
Theorem discover_page_guarantee s user_id limit oid user my_profile :
  (1 <= limit <= 50)%Z ->
  ObjectId user_id = Some oid ->
  find_one c_user (fun d => _id d = oid) s = Some user ->
  find_one c_profile (fun d => Profile.user_id (body d) = user_id) s = Some my_profile ->
  let swiped := swiped_ids user_id s in
  let page :=
    take (Z.to_nat (limit * 2))
         (find c_profile (profile_matches (discover_filter user_id user)) s) in
  Forall (readable swiped) page ->
  let valid := omap (candidate_card s swiped) page in
  discover user_id limit s = Ok (take (Z.to_nat limit) valid)
  /\ (Z.to_nat limit <= length valid ->
      length (take (Z.to_nat limit) valid) = Z.to_nat limit)%nat
  /\ (length valid < Z.to_nat limit -> take (Z.to_nat limit) valid = valid)%nat.
Proof.
  intros Hlimit Hoid Huser Hprof swiped page Hpage valid. split; [|split].
  - unfold discover.
    replace ((limit <? 1)%Z || (50 <? limit)%Z) with false by lia.
    rewrite Hoid, Huser, Hprof.
    rewrite discover_loop_page; [reflexivity|simpl; lia|exact Hpage].
  - intros Hle. by rewrite length_take_le.
  - intros Hlt. apply firstn_all2. lia.
Qed.

Lemma discover_page_guarantee_witness :
  exists cards, discover (str 1) 20 profiled_store = Ok cards /\ length cards = 1%nat.
Proof.
  edestruct (discover_page_guarantee profiled_store (str 1) 20 1) as [Hd _].
  - lia.
  - vm_compute. reflexivity.
  - vm_compute. reflexivity.
  - vm_compute. reflexivity.
  - apply (bool_decide_eq_true_1 _). vm_compute. reflexivity.
  - eexists. split; [exact Hd|]. vm_compute. reflexivity.
Defined.

(** The store of the scenario below: four profiles in this order, and
    Alice's two swipes. *)
Lemma crowded_store_shape :
  (fun p => Profile.user_id (body p)) <$> profiles crowded_store
  = [str 1; str 3; str 5; str 7]
  /\ body <$> swipes crowded_store
     = [Swipe.mk (str 1) (str 3) "left"; Swipe.mk (str 1) (str 5) "left"]
  /\ (fun u => User.is_banned (body u)) <$> users crowded_store
     = [false; false; false; false].
Proof. repeat split; vm_compute; reflexivity. Qed.

(** C3, as the spec words it, fails: with [limit = 1] Alice's page is the
    profiles of Bob and Carol, both swiped on, and Dave's valid profile
    behind them is never read. *)
Lemma discover_guarantee_counterexample : ~ discover_guarantee (str 1) 1 crowded_store.
Proof.
  intros Hg.
  destruct (Hg 1%N
              (Doc 1%N (User.mk "alice@polito.it" (Some "Sam") None true false None true))
              []) as [Hge _].
  - vm_compute. reflexivity.
  - vm_compute. reflexivity.
  - vm_compute. reflexivity.
  - vm_compute in Hge. lia.
Qed.

(** C1, at the failing input. Alice has no residence and does not allow all
    residences; Bob lives in residence ["r1"]. The filter key [residence_id]
    is matched against profile documents, which do not carry it, so Bob's
    card is returned to Alice with a residence that is not hers. *)
Theorem discover_returns_other_residence :
  (exists alice,
     find_one c_user (fun d => _id d = 1%N) profiled_store = Some alice
     /\ User.allow_all_residences (body alice) = false
     /\ User.residence_id (body alice) = None)
  /\ discover (str 1) 20 profiled_store
     = Ok [Card.mk (str 3) (Some "Sam") (Some 20%Z) (Some "hello") (Some "r1")
             (photos_docs (replicate 3 "https://img/p.jpg"))].
Proof.
  split.
  - eexists. split; [vm_compute; reflexivity|]. split; reflexivity.
  - vm_compute. reflexivity.
Qed.

(** The residence key of the filter never compares two residences: a
    requester with a residence matches no profile at all, and a requester
    without one matches every other profile. *)
Lemma residence_filter_blind user_id user prof :
  User.allow_all_residences (body user) = false ->
  profile_matches (discover_filter user_id user) prof
  <-> Profile.user_id (body prof) <> user_id /\ User.residence_id (body user) = None.
Proof.
  intros Hallow. unfold profile_matches, discover_filter, missing_key_matches.
  rewrite Hallow. simpl. tauto.
Qed.

(** ** Magic links *)

Section FilterFacts.
Context {A : Type}.
Context (P : doc A -> Prop) `{!forall d, Decision (P d)}.

Lemma filter_none (l : list (doc A)) :
  Forall (fun d => ~ P d) l -> filter P l = [].
Proof.
  induction 1 as [|x l Hx _ IH]; [done|].
  by rewrite filter_cons_False.
Qed.

Lemma update_first_last (f : A -> A) (l : list (doc A)) d :
  Forall (fun d => ~ P d) l -> P d ->
  update_first P f (l ++ [d]) = l ++ [Doc (_id d) (f (body d))].
Proof.
  intros Hl Hd. induction Hl as [|x l Hx _ IH]; cbn [update_first app].
  - by rewrite decide_True.
  - rewrite decide_False by done. by rewrite IH.
Qed.
End FilterFacts.

Lemma purpose_ok purpose :
  purpose = "login" \/ purpose = "signup" ->
  bool_decide (purpose ∈ ({[ "login"; "signup" ]} : gset string)) = true.
Proof.
  intros H. apply bool_decide_eq_true. rewrite elem_of_union, !elem_of_singleton. done.
Qed.

Section AuthFacts.
Variable validate_email : string -> option string.

Lemma send_magic_link_ok s email purpose token now :
  is_valid_domain validate_email (lower email) = true ->
  purpose = "login" \/ purpose = "signup" ->
  send_magic_link validate_email (SendMagicLinkRequest.mk email purpose) token now s
  = (Ok (SendMagicLinkResponse.mk "Magic link created" token (now + MAGIC_TOKEN_TTL)),
     snd (create_document c_verification
            (Verification.mk (lower email) token purpose false (now + MAGIC_TOKEN_TTL)) s)).
Proof.
  intros Hdom Hpurpose.
  unfold send_magic_link. cbn [SendMagicLinkRequest.email SendMagicLinkRequest.purpose].
  rewrite Hdom. cbn [negb]. unfold new_Verification. rewrite (purpose_ok _ Hpurpose).
  reflexivity.
Qed.

Lemma verify_magic_link_none s email token now :
  is_valid_domain validate_email (lower email) = true ->
  Forall (fun d => ~ pending (lower email) token d) (verifications s) ->
  verify_magic_link validate_email (VerifyMagicLinkRequest.mk email token) now s
  = (Raise (HTTPException 400 "Invalid or used token"), s).
Proof.
  intros Hdom Hnone.
  unfold verify_magic_link. cbn [VerifyMagicLinkRequest.email VerifyMagicLinkRequest.token].
  rewrite Hdom. cbn [negb]. unfold bind at 1. unfold query at 1.
  unfold get_documents, find. cbn [db]. by rewrite (filter_none _ _ Hnone).
Qed.

Lemma verify_magic_link_last s email token now l v :
  is_valid_domain validate_email (lower email) = true ->
  verifications s = l ++ [v] ->
  Forall (fun d => ~ pending (lower email) token d) l ->
  Forall (fun d => _id d <> _id v) l ->
  pending (lower email) token v ->
  (now <= Verification.expires_at (body v))%Z ->
  exists user_id u s',
    verify_magic_link validate_email (VerifyMagicLinkRequest.mk email token) now s
    = (Ok (VerifyResponse.mk "Verified" user_id), s')
    /\ verifications s' = l ++ [Doc (_id v) (mark_used (body v))]
    /\ u ∈ users s'
    /\ str (_id u) = user_id
    /\ User.email (body u) = lower email.
Proof.
  intros Hdom Hs Hl Hids Hv Hnow.
  unfold verify_magic_link. cbn [VerifyMagicLinkRequest.email VerifyMagicLinkRequest.token].
  rewrite Hdom. cbn [negb]. unfold bind at 1. unfold query at 1.
  unfold get_documents, find. cbn [db]. rewrite Hs, filter_app, (filter_none _ _ Hl).
  rewrite filter_cons_True by done. rewrite filter_nil. cbn [app last].
  replace (Verification.expires_at (body v) <? now)%Z with false by lia.
  unfold bind at 1. unfold query at 1.
  destruct (find_one c_user _ s) as [u|] eqn:Eu.
  - apply find_one_Some in Eu as [Hin Hemail].
    exists (str (_id u)), u. eexists. split; [reflexivity|].
    cbn. rewrite Hs. split; [|done].
    by rewrite (update_first_last _ _ _ _ Hids eq_refl).
  - exists (str (next_id s)), (Doc (next_id s) (new_User (lower email))). eexists.
    split; [reflexivity|]. cbn. rewrite Hs. split; [|split; [|done]].
    + by rewrite (update_first_last _ _ _ _ Hids eq_refl).
    + apply elem_of_app. right. by apply list_elem_of_singleton.
Qed.

(** C5. For an address of an allowed domain, a magic link sent and then
    verified with the same address no later than its expiry succeeds and
    returns the id of the user stored for that address; a second
    verification with the same token is refused with the 400 "Invalid or
    used token" and leaves the whole store, users included, as it was. The
    token drawn is assumed not to be pending for that address already, and
    the store to give out fresh identifiers. *)
Theorem magic_link_round_trip s email purpose token now1 now2 now3 :
  is_valid_domain validate_email (lower email) = true ->
  purpose = "login" \/ purpose = "signup" ->
  Forall (fun d => (_id d < next_id s)%N) (verifications s) ->
  Forall (fun d => ~ pending (lower email) token d) (verifications s) ->
  (now2 <= now1 + MAGIC_TOKEN_TTL)%Z ->
  let sent :=
    send_magic_link validate_email (SendMagicLinkRequest.mk email purpose) token now1 s in
  let first :=
    verify_magic_link validate_email (VerifyMagicLinkRequest.mk email token) now2 (snd sent) in
  let second :=
    verify_magic_link validate_email (VerifyMagicLinkRequest.mk email token) now3 (snd first) in
  fst sent = Ok (SendMagicLinkResponse.mk "Magic link created" token (now1 + MAGIC_TOKEN_TTL))
  /\ (exists user_id u,
        fst first = Ok (VerifyResponse.mk "Verified" user_id)
        /\ u ∈ users (snd first)
        /\ str (_id u) = user_id
        /\ User.email (body u) = lower email)
  /\ second = (Raise (HTTPException 400 "Invalid or used token"), snd first).
Proof.
  intros Hdom Hpurpose Hids Hfresh Hnow sent first second.
  subst sent first second.
  rewrite (send_magic_link_ok s email purpose token now1 Hdom Hpurpose). cbn [fst snd].
  split; [reflexivity|].
  set (vb := Verification.mk (lower email) token purpose false (now1 + MAGIC_TOKEN_TTL)).
  destruct (verify_magic_link_last
              (snd (create_document c_verification vb s))
              email token now2 (verifications s) (Doc (next_id s) vb))
    as [user_id [u [s' [Hv [Hver [Hin [Hid Hemail]]]]]]]; try done.
  { eapply Forall_impl; [exact Hids|]. simpl. intros d Hd Heq. rewrite Heq in Hd. simpl in Hd. lia. }
  rewrite Hv. cbn [fst snd]. split; [by exists user_id, u|].
  apply verify_magic_link_none; [done|]. rewrite Hver.
  apply Forall_app. split; [done|].
  constructor; [|constructor]. unfold pending, mark_used. simpl. intros (_ & _ & [=]).
Qed.
End AuthFacts.

Lemma magic_link_round_trip_witness :
  verify_magic_link example_validate_email
    (VerifyMagicLinkRequest.mk "Alice@polito.it" "token-a") 20
    (snd (verify_magic_link example_validate_email
            (VerifyMagicLinkRequest.mk "Alice@polito.it" "token-a") 10
            (snd (send_magic_link example_validate_email
                    (SendMagicLinkRequest.mk "Alice@polito.it" "login") "token-a" 0
                    empty_store))))
  = (Raise (HTTPException 400 "Invalid or used token"),
     snd (verify_magic_link example_validate_email
            (VerifyMagicLinkRequest.mk "Alice@polito.it" "token-a") 10
            (snd (send_magic_link example_validate_email
                    (SendMagicLinkRequest.mk "Alice@polito.it" "login") "token-a" 0
                    empty_store)))).
Proof.
  apply (magic_link_round_trip example_validate_email empty_store
           "Alice@polito.it" "login" "token-a" 0 10 20).
  - vm_compute. reflexivity.
  - by left.
  - constructor.
  - constructor.
  - vm_compute. discriminate.
Defined.

(** ** What handlers leave in place *)

Section Respects.
Context (R : relation store) `{!PreOrder R}.

Lemma respects_ret {A} (a : A) : respects R (ret a).
Proof. intros s. reflexivity. Qed.

Lemma respects_raise {A} e : respects R (raise (A := A) e).
Proof. intros s. reflexivity. Qed.

Lemma respects_query {A} (f : store -> A) : respects R (query f).
Proof. intros s. reflexivity. Qed.

Lemma respects_bind {A B} (m : M A) (k : A -> M B) :
  respects R m -> (forall a, respects R (k a)) -> respects R (bind m k).
Proof.
  intros Hm Hk s. unfold bind. specialize (Hm s).
  destruct (m s) as [[a|e] s']; simpl in *; [|done].
  etransitivity; [exact Hm|apply Hk].
Qed.

Lemma respects_bson_encode p : respects R (bson_encode p).
Proof. intros s. unfold bson_encode. destruct (encodable p); reflexivity. Qed.

Lemma respects_create_document {A} (c : collection A) data :
  respects R (insert_one c data) -> respects R (create_document c data).
Proof. intros H. apply respects_bind; [done|]. intros. apply respects_ret. Qed.
End Respects.

#[local] Instance same_swipes_matches_preorder : PreOrder same_swipes_matches.
Proof.
  split.
  - by intros s.
  - intros s1 s2 s3 [H1 H2] [H3 H4]. split; congruence.
Qed.

#[local] Instance keeps_ok_preorder : PreOrder keeps_ok.
Proof. split; unfold keeps_ok; [by intros s|intros s1 s2 s3; tauto]. Qed.

(** One step of a proof that a handler respects a relation: through the
    monad, then by cases on the tests of the handler. *)
Ltac respects_step :=
  first
    [ apply respects_ret; solve [apply _]
    | apply respects_raise; solve [apply _]
    | apply respects_query; solve [apply _]
    | apply respects_bson_encode; solve [apply _]
    | apply respects_bind; [apply _| |intros ?]
    | apply respects_create_document; [apply _|]
    | match goal with
      | |- respects _ (if ?b then _ else _) => destruct b
      | |- respects _ (match ?x with _ => _ end) => destruct x
      end ].

Lemma insert_one_keeps_ok {A} (c : collection A) data : respects keeps_ok (insert_one c data).
Proof.
  intros s Hok B c'. unfold insert_one.
  assert (forall C (k : collection C),
            Forall (fun d => (_id d < N.succ (next_id s))%N) (db k s)) as Hlt.
  { intros C k. eapply Forall_impl; [apply Hok|]. simpl. intros. lia. }
  destruct c, c'; simpl; try apply Forall_app; try split;
    try apply (Hlt _ c_user); try apply (Hlt _ c_profile);
    try apply (Hlt _ c_verification); try apply (Hlt _ c_swipe);
    try apply (Hlt _ c_match); try apply (Hlt _ c_message); try apply (Hlt _ c_report);
    repeat constructor; simpl; lia.
Qed.

Lemma update_first_Forall_id {A} (P : doc A -> Prop) `{!forall d, Decision (P d)}
    (f : A -> A) (Q : N -> Prop) (l : list (doc A)) :
  Forall (fun d => Q (_id d)) l -> Forall (fun d => Q (_id d)) (update_first P f l).
Proof.
  induction 1 as [|x l Hx Hl IH]; cbn [update_first]; [constructor|].
  destruct (decide (P x)); constructor; done.
Qed.

Lemma update_one_keeps_ok {A} (c : collection A) (P : doc A -> Prop)
    `{!forall d, Decision (P d)} (f : A -> A) :
  respects keeps_ok (update_one c P f).
Proof.
  intros s Hok B c'. unfold update_one.
  pose proof (update_first_Forall_id P f (fun i => (i < next_id s)%N) (db c s) (Hok _ c)) as Hu.
  destruct c, c'; simpl; first [exact Hu | apply (Hok _ c_user) | apply (Hok _ c_profile)
    | apply (Hok _ c_verification) | apply (Hok _ c_swipe) | apply (Hok _ c_match)
    | apply (Hok _ c_message) | apply (Hok _ c_report)].
Qed.

Lemma store_ok_empty : store_ok empty_store.
Proof. intros A c. destruct c; constructor. Qed.

Section HandlersKeepOk.
Variable validate_email : string -> option string.

Lemma send_magic_link_keeps_ok payload token now :
  respects keeps_ok (send_magic_link validate_email payload token now).
Proof.
  unfold send_magic_link, new_Verification. cbv zeta.
  repeat respects_step; apply insert_one_keeps_ok.
Qed.

Lemma verify_magic_link_keeps_ok payload now :
  respects keeps_ok (verify_magic_link validate_email payload now).
Proof.
  unfold verify_magic_link. cbv zeta.
  repeat respects_step; first [apply insert_one_keeps_ok | apply update_one_keeps_ok].
Qed.

Lemma create_or_update_profile_keeps_ok user_id payload now :
  respects keeps_ok (create_or_update_profile user_id payload now).
Proof.
  unfold create_or_update_profile. cbv zeta.
  repeat respects_step; first [apply insert_one_keeps_ok | apply update_one_keeps_ok].
Qed.

Lemma swipe_keeps_ok user_id payload : respects keeps_ok (swipe user_id payload).
Proof.
  unfold swipe. cbv zeta.
  repeat respects_step; apply insert_one_keeps_ok.
Qed.

Lemma send_message_keeps_ok user_id payload : respects keeps_ok (send_message user_id payload).
Proof.
  unfold send_message.
  repeat respects_step; apply insert_one_keeps_ok.
Qed.

Lemma report_keeps_ok user_id target_user_id target_message_id reason details :
  respects keeps_ok (report user_id target_user_id target_message_id reason details).
Proof.
  unfold report.
  repeat respects_step; apply insert_one_keeps_ok.
Qed.

(** Identifiers stay fresh along every history from the empty store. *)
Lemma run_store_ok calls s : store_ok s -> store_ok (run validate_email calls s).
Proof.
  revert s. induction calls as [|c calls IH]; intros s Hok; [done|].
  cbn [run fold_left]. apply IH. destruct c; cbn [handle].
  - by apply send_magic_link_keeps_ok.
  - by apply verify_magic_link_keeps_ok.
  - by apply create_or_update_profile_keeps_ok.
  - by apply swipe_keeps_ok.
  - by apply send_message_keeps_ok.
  - by apply report_keeps_ok.
Qed.
End HandlersKeepOk.

(** ** Swipe symmetry *)

Lemma insert_one_same {A} (c : collection A) data :
  swipe_or_match c = false -> respects same_swipes_matches (insert_one c data).
Proof. intros Hc s. destruct c; try discriminate; by split. Qed.

Lemma update_one_same {A} (c : collection A) (P : doc A -> Prop)
    `{!forall d, Decision (P d)} (f : A -> A) :
  swipe_or_match c = false -> respects same_swipes_matches (update_one c P f).
Proof. intros Hc s. destruct c; try discriminate; by split. Qed.

Section HandlersSame.
Variable validate_email : string -> option string.

Lemma send_magic_link_same payload token now :
  respects same_swipes_matches (send_magic_link validate_email payload token now).
Proof.
  unfold send_magic_link, new_Verification. cbv zeta.
  repeat respects_step; by apply insert_one_same.
Qed.

Lemma verify_magic_link_same payload now :
  respects same_swipes_matches (verify_magic_link validate_email payload now).
Proof.
  unfold verify_magic_link. cbv zeta.
  repeat respects_step; first [by apply insert_one_same | by apply update_one_same].
Qed.
End HandlersSame.

Lemma create_or_update_profile_same user_id payload now :
  respects same_swipes_matches (create_or_update_profile user_id payload now).
Proof.
  unfold create_or_update_profile. cbv zeta.
  repeat respects_step; first [by apply insert_one_same | by apply update_one_same].
Qed.

Lemma send_message_same user_id payload :
  respects same_swipes_matches (send_message user_id payload).
Proof.
  unfold send_message.
  repeat respects_step; by apply insert_one_same.
Qed.

Lemma report_same user_id target_user_id target_message_id reason details :
  respects same_swipes_matches
    (report user_id target_user_id target_message_id reason details).
Proof.
  unfold report.
  repeat respects_step; by apply insert_one_same.
Qed.

Lemma match_between_sym a b d : match_between a b d <-> match_between b a d.
Proof. unfold match_between. tauto. Qed.

Lemma match_count_sym a b s : match_count a b s = match_count b a s.
Proof.
  unfold match_count. f_equal. apply list_filter_iff. intros d. apply match_between_sym.
Qed.

Lemma match_count_snoc a b l d :
  length (filter (match_between a b) (l ++ [d]))
  = (length (filter (match_between a b) l)
     + if decide (match_between a b d) then 1 else 0)%nat.
Proof.
  rewrite filter_app, length_app. f_equal.
  rewrite filter_cons. by destruct (decide (match_between a b d)).
Qed.

Lemma match_count_pos a b s :
  (1 <= match_count a b s)%nat <-> is_Some (find_one c_match (match_between a b) s).
Proof.
  unfold match_count, find_one, find. simpl.
  destruct (filter _ _); simpl; split; try lia; try (by intros [? [=]]); eauto.
Qed.

Lemma find_one_app {A} (P : doc A -> Prop) `{!forall d, Decision (P d)} (l k : list (doc A)) :
  is_Some (head (filter P l)) -> is_Some (head (filter P (l ++ k))).
Proof.
  rewrite filter_app. destruct (filter P l); simpl; [by intros [? [=]]|eauto].
Qed.

(** What a right swipe does to the store, by whether the other side had
    swiped right and whether the two already share a match. *)
Lemma swipe_right_cases s u t :
  let r := swipe u (SwipeRequest.mk t "right") s in
  swipes (snd r) = swipes s ++ [Doc (next_id s) (Swipe.mk u t "right")]
  /\ users (snd r) = users s
  /\ ((fst r = Ok (SwipeResponse.mk "swiped" true)
       /\ is_Some (find_one c_swipe (right_swipe t u) (snd r))
       /\ (((1 <= match_count u t s)%nat /\ matches (snd r) = matches s)
           \/ (match_count u t s = 0%nat
               /\ matches (snd r)
                  = matches s ++ [Doc (N.succ (next_id s)) (Match.mk u t)])))
      \/ (fst r = Ok (SwipeResponse.mk "swiped" false)
          /\ find_one c_swipe (right_swipe t u) (snd r) = None
          /\ matches (snd r) = matches s)).
Proof.
  intros r. subst r. rewrite swipe_right. cbv zeta.
  set (s1 := snd (create_document c_swipe (Swipe.mk u t "right") s)).
  destruct (find_one c_swipe (right_swipe t u) s1) as [d|] eqn:Erec.
  - destruct (find_one c_match (match_between u t) s1) as [m|] eqn:Em; cbn [fst snd].
    + split; [done|]. split; [done|]. left. split; [done|]. split; [by rewrite Erec|].
      left. split; [|done]. apply match_count_pos.
      unfold find_one, find in *. simpl in *. by rewrite Em.
    + split; [done|]. split; [done|]. left. split; [done|]. split.
      * unfold find_one, find in *. simpl in *. by rewrite Erec.
      * right. split; [|done]. apply match_count_0.
        unfold find_one, find in *. simpl in *. done.
  - cbn [fst snd]. split; [done|]. split; [done|]. right. done.
Qed.

Lemma swipe_invalid s u t direction :
  direction <> "left" -> direction <> "right" ->
  swipe u (SwipeRequest.mk t direction) s = (Raise (HTTPException 400 "Invalid direction"), s).
Proof.
  intros Hl Hr. unfold swipe. cbn [SwipeRequest.target_id SwipeRequest.direction].
  rewrite bool_decide_false; [reflexivity|].
  rewrite elem_of_union, !elem_of_singleton. tauto.
Qed.

(** Whatever the call, [swipe] only appends: swipes at the end of the swipe
    collection, and at most one match, between two users who had none. *)
Lemma swipe_appends s u payload :
  let s' := snd (swipe u payload s) in
  (exists k, swipes s' = swipes s ++ k)
  /\ (matches s' = matches s
      \/ (match_count u (SwipeRequest.target_id payload) s = 0%nat
          /\ exists i, matches s'
                       = matches s ++ [Doc i (Match.mk u (SwipeRequest.target_id payload))])).
Proof.
  destruct payload as [t direction]. cbn [SwipeRequest.target_id].
  destruct (decide (direction = "right")) as [->|Hr].
  - destruct (swipe_right_cases s u t) as (Hsw & _ & [(_ & _ & [[_ Hm]|[H0 Hm]])|(_ & _ & Hm)]).
    + split; [eauto|by left].
    + split; [eauto|]. right. eauto.
    + split; [eauto|by left].
  - destruct (decide (direction = "left")) as [->|Hl].
    + rewrite swipe_left. split; [|by left]. by eexists.
    + rewrite swipe_invalid by done. split; [|by left]. exists []. by rewrite app_nil_r.
Qed.

Lemma matched_once_swipe a b s u payload :
  matched_once a b s -> matched_once a b (snd (swipe u payload s)).
Proof.
  intros (Hab & Hba & Hcount).
  destruct (swipe_appends s u payload) as ([k Hsw] & Hm).
  unfold matched_once, find_one, find, match_count in *. cbn [db] in *.
  rewrite Hsw. split; [by apply find_one_app|]. split; [by apply find_one_app|].
  destruct Hm as [->|(H0 & i & ->)]; [done|].
  rewrite match_count_snoc, Hcount.
  destruct (decide (match_between a b _)) as [Hnew|]; [|done].
  exfalso. assert (length (filter (match_between a b) (matches s))
                   = length (filter (match_between u (SwipeRequest.target_id payload))
                               (matches s))) as Heq.
  { f_equal. apply list_filter_iff. intros d.
    unfold match_between in *. simpl in Hnew. intuition congruence. }
  lia.
Qed.

Section HistoryFacts.
Variable validate_email : string -> option string.

Lemma matched_once_handle a b c s :
  matched_once a b s -> matched_once a b (handle validate_email c s).
Proof.
  intros Hm.
  assert (forall s', same_swipes_matches s s' -> matched_once a b s') as Hsame.
  { intros s' [Hsw Hma]. unfold matched_once, find_one, find, match_count in *.
    cbn [db] in *. by rewrite Hsw, Hma. }
  destruct c; cbn [handle].
  - apply Hsame, send_magic_link_same.
  - apply Hsame, verify_magic_link_same.
  - apply Hsame, create_or_update_profile_same.
  - by apply matched_once_swipe.
  - apply Hsame, send_message_same.
  - apply Hsame, report_same.
Qed.

Lemma matched_once_run a b calls s :
  matched_once a b s -> matched_once a b (run validate_email calls s).
Proof.
  revert s. induction calls as [|c calls IH]; intros s Hm; [done|].
  cbn [run fold_left]. by apply IH, matched_once_handle.
Qed.
End HistoryFacts.

(** Once two users are matched, a right swipe of one on the other reports
    the match and stores no other. *)
Lemma swipe_right_matched a b s :
  matched_once a b s ->
  let r := swipe a (SwipeRequest.mk b "right") s in
  fst r = Ok (SwipeResponse.mk "swiped" true)
  /\ matches (snd r) = matches s.
Proof.
  intros (Hab & Hba & Hcount) r.
  destruct (swipe_right_cases s a b) as (Hsw & _ & [(Hr & _ & [[_ Hm]|[H0 _]])|(_ & Hnone & _)]).
  - done.
  - lia.
  - exfalso. unfold find_one, find in *. cbn [db] in *. rewrite Hsw in Hnone.
    apply (find_one_app _ _ [Doc (next_id s) (Swipe.mk a b "right")]) in Hba.
    rewrite Hnone in Hba. by destruct Hba.
Qed.

Lemma matched_once_sym a b s : matched_once a b s -> matched_once b a s.
Proof. intros (Hab & Hba & Hcount). repeat split; try done. by rewrite match_count_sym. Qed.

(** After a right swipe each way, the two users are matched once. *)
Lemma mutual_right_swipes a b s :
  (match_count a b s <= 1)%nat ->
  let s1 := snd (swipe a (SwipeRequest.mk b "right") s) in
  let r2 := swipe b (SwipeRequest.mk a "right") s1 in
  fst r2 = Ok (SwipeResponse.mk "swiped" true) /\ matched_once a b (snd r2).
Proof.
  intros Hle s1 r2.
  destruct (swipe_right_cases s a b) as (Hsw1 & _ & Hcase1). fold s1 in Hsw1, Hcase1.
  assert (match_count a b s1 <= 1)%nat as Hle1.
  { unfold match_count in *.
    destruct Hcase1 as [(_ & _ & [[_ ->]|[H0 ->]])|(_ & _ & ->)]; [done| |done].
    rewrite match_count_snoc, H0.
    destruct (decide _); simpl; lia. }
  assert (is_Some (find_one c_swipe (right_swipe a b) s1)) as Hab1.
  { unfold find_one, find. cbn [db]. rewrite Hsw1.
    eapply head_filter_is_Some.
    - apply elem_of_app. right. by apply list_elem_of_singleton.
    - done. }
  destruct (swipe_right_cases s1 b a) as (Hsw2 & _ & Hcase2). fold r2 in Hsw2, Hcase2.
  assert (is_Some (find_one c_swipe (right_swipe a b) (snd r2))) as Hab2.
  { unfold find_one, find in *. cbn [db] in *. rewrite Hsw2. by apply find_one_app. }
  assert (is_Some (find_one c_swipe (right_swipe b a) (snd r2))) as Hba2.
  { unfold find_one, find. cbn [db]. rewrite Hsw2.
    eapply head_filter_is_Some.
    - apply elem_of_app. right. by apply list_elem_of_singleton.
    - done. }
  destruct Hcase2 as [(Hr & _ & Hm)|(_ & Hnone & _)].
  - split; [done|]. split; [done|]. split; [done|].
    unfold match_count in *.
    destruct Hm as [[Hpos ->]|[H0 ->]].
    + pose proof (match_count_sym b a s1) as Hsym. unfold match_count in Hsym. lia.
    + rewrite match_count_snoc.
      pose proof (match_count_sym b a s1) as Hsym. unfold match_count in Hsym.
      rewrite decide_True by (by right). lia.
  - rewrite Hnone in Hab2. by destruct Hab2.
Qed.

Lemma counterpart_resolves_users s s' user_id m :
  users s' = users s ->
  counterpart_resolves s user_id m -> counterpart_resolves s' user_id m.
Proof.
  intros Hu (oid & Hoid & Hsome). exists oid. split; [done|].
  unfold find_one, find in *. cbn [db] in *. by rewrite Hu.
Qed.

Lemma other_id_between a b d : match_between a b d -> other_id a d = b.
Proof.
  unfold match_between, other_id. intros [[Ha Hb]|[Ha Hb]].
  - by rewrite bool_decide_true.
  - destruct (bool_decide (Match.user_a (body d) = a)) eqn:E; [|done].
    apply bool_decide_eq_true in E. congruence.
Qed.

(** A user's match list after a right swipe by [u] on [t], when both are
    stored users: the counterparts still resolve. *)
Lemma resolves_after_swipe s u t user_id :
  user_exists s u -> user_exists s t ->
  Forall (counterpart_resolves s user_id) (find c_match (match_of user_id) s) ->
  let s' := snd (swipe u (SwipeRequest.mk t "right") s) in
  user_exists s' u /\ user_exists s' t
  /\ Forall (counterpart_resolves s' user_id) (find c_match (match_of user_id) s').
Proof.
  intros Hu Ht Hall s'.
  destruct (swipe_right_cases s u t) as (_ & Husers & Hcase). fold s' in Husers, Hcase.
  assert (forall x, user_exists s x -> user_exists s' x) as Hex.
  { intros x (oid & Hoid & Hsome). exists oid. split; [done|].
    unfold find_one, find in *. cbn [db] in *. by rewrite Husers. }
  split; [by apply Hex|]. split; [by apply Hex|].
  assert (Forall (counterpart_resolves s' user_id) (find c_match (match_of user_id) s))
    as Hall'.
  { eapply Forall_impl; [exact Hall|]. intros m. by apply counterpart_resolves_users. }
  unfold find in *. cbn [db] in *.
  destruct Hcase as [(_ & _ & [[_ ->]|[_ ->]])|(_ & _ & ->)]; [done| |done].
  rewrite filter_app. apply Forall_app. split; [done|].
  rewrite filter_cons, filter_nil.
  destruct (decide (match_of user_id _)) as [Hof|]; [|constructor].
  constructor; [|constructor].
  unfold match_of in Hof. simpl in Hof. unfold counterpart_resolves, other_id. simpl.
  destruct Hof as [<-|<-].
  - rewrite bool_decide_true by done. by apply Hex.
  - destruct (bool_decide (u = t)) eqn:E.
    + apply bool_decide_eq_true in E. subst. by apply Hex.
    + by apply Hex.
Qed.

Lemma list_matches_includes s a b :
  matched_once a b s ->
  Forall (counterpart_resolves s a) (find c_match (match_of a) s) ->
  exists l, list_matches a s = Ok l /\ b ∈ MatchSummary.user_id <$> l.
Proof.
  intros (_ & _ & Hcount) Hall.
  destruct (list_matches_loop_ok s a _ [] Hall) as [l [Hl Hids]].
  exists l. split; [exact Hl|]. rewrite Hids.
  assert (is_Some (find_one c_match (match_between a b) s)) as [d Hd].
  { apply match_count_pos. lia. }
  apply find_one_Some in Hd as [Hin Hbetween].
  apply list_elem_of_fmap. exists d. split; [by rewrite (other_id_between a b)|].
  apply list_elem_of_filter. split; [|done].
  unfold match_of. unfold match_between in Hbetween. tauto.
Qed.

(** C2, as the code has it. Two stored users, with at most one match record
    between their two id strings so far, swipe right on each other. The
    second swipe reports the match; exactly one match record then joins the
    two id strings; each finds the other in [list_matches], provided the
    counterparts of the matches it already had are ids of stored users; and
    after any further history of calls, a right swipe of either on the other
    still reports the match and leaves the match collection as it is. *)
Theorem swipe_symmetry (validate_email : string -> option string) s A B :
  (match_count A B s <= 1)%nat ->
  user_exists s A ->
  user_exists s B ->
  let s1 := snd (swipe A (SwipeRequest.mk B "right") s) in
  let r2 := swipe B (SwipeRequest.mk A "right") s1 in
  let s2 := snd r2 in
  fst r2 = Ok (SwipeResponse.mk "swiped" true)
  /\ match_count A B s2 = 1%nat
  /\ (Forall (counterpart_resolves s A) (find c_match (match_of A) s) ->
      exists la, list_matches A s2 = Ok la /\ B ∈ MatchSummary.user_id <$> la)
  /\ (Forall (counterpart_resolves s B) (find c_match (match_of B) s) ->
      exists lb, list_matches B s2 = Ok lb /\ A ∈ MatchSummary.user_id <$> lb)
  /\ forall calls X Y,
       (X = A /\ Y = B) \/ (X = B /\ Y = A) ->
       let s3 := run validate_email calls s2 in
       let r := swipe X (SwipeRequest.mk Y "right") s3 in
       fst r = Ok (SwipeResponse.mk "swiped" true)
       /\ matches (snd r) = matches s3
       /\ match_count A B (snd r) = 1%nat.
Proof.
  intros Hle HA HB s1 r2 s2.
  destruct (mutual_right_swipes A B s Hle) as [Hr2 Honce].
  fold s1 r2 s2 in Hr2, Honce.
  assert (forall U,
            Forall (counterpart_resolves s U) (find c_match (match_of U) s) ->
            Forall (counterpart_resolves s2 U) (find c_match (match_of U) s2)) as Hres.
  { intros U HresU.
    destruct (resolves_after_swipe s A B U HA HB HresU) as (HA1 & HB1 & HresU1).
    fold s1 in HA1, HB1, HresU1.
    by destruct (resolves_after_swipe s1 B A U HB1 HA1 HresU1) as (_ & _ & HresU2). }
  split; [exact Hr2|]. split; [apply Honce|].
  split; [intros HresA; by apply list_matches_includes, Hres|].
  split; [intros HresB; by apply list_matches_includes, Hres; [apply matched_once_sym|]|].
  intros calls X Y HXY s3 r.
  pose proof (matched_once_run validate_email A B calls s2 Honce) as Honce3.
  fold s3 in Honce3.
  assert (matched_once X Y s3) as HonceXY.
  { destruct HXY as [[-> ->]|[-> ->]]; [done|by apply matched_once_sym]. }
  destruct (swipe_right_matched X Y s3 HonceXY) as [Hr Hm]. fold r in Hr, Hm.
  split; [exact Hr|]. split; [exact Hm|].
  unfold match_count. rewrite Hm. apply Honce3.
Qed.

Lemma swipe_symmetry_witness :
  fst (swipe (str 3) (SwipeRequest.mk (str 1) "right")
         (snd (swipe (str 1) (SwipeRequest.mk (str 3) "right") profiled_store)))
  = Ok (SwipeResponse.mk "swiped" true)
  /\ match_count (str 1) (str 3) matched_store = 1%nat
  /\ (exists la, list_matches (str 1) matched_store = Ok la
                 /\ str 3 ∈ MatchSummary.user_id <$> la)
  /\ (exists lb, list_matches (str 3) matched_store = Ok lb
                 /\ str 1 ∈ MatchSummary.user_id <$> lb).
Proof.
  pose proof (swipe_symmetry example_validate_email profiled_store (str 1) (str 3)) as H.
  cbv zeta in H. fold matched_store in H.
  destruct H as (H1 & H2 & H3 & H4 & _).
  - vm_compute. lia.
  - exists 1%N. split; [vm_compute; reflexivity|]. vm_compute. eauto.
  - exists 3%N. split; [vm_compute; reflexivity|]. vm_compute. eauto.
  - split; [exact H1|]. split; [exact H2|].
    split; [apply H3|apply H4]; vm_compute; constructor.
Defined.

(** C2, as the specification words it, fails for two stored users when one
    of them already has a match whose counterpart is no stored user's id:
    Alice has a match with ["ghost"], and after Alice and Bob have swiped
    right on each other [list_matches] for Alice raises [InvalidId] on that
    first match instead of listing Bob. *)
Lemma swipe_symmetry_counterexample :
  user_exists ghosted_store (str 1)
  /\ user_exists ghosted_store (str 3)
  /\ list_matches (str 1)
       (snd (swipe (str 3) (SwipeRequest.mk (str 1) "right")
               (snd (swipe (str 1) (SwipeRequest.mk (str 3) "right") ghosted_store))))
     = Raise InvalidId
  /\ ~ swipe_symmetry_claim (str 1) (str 3) ghosted_store.
Proof.
  split; [exists 1%N; split; [vm_compute; reflexivity|vm_compute; eauto]|].
  split; [exists 3%N; split; [vm_compute; reflexivity|vm_compute; eauto]|].
  split; [vm_compute; reflexivity|].
  intros (_ & [la [Hla _]] & _). vm_compute in Hla. discriminate.
Qed.

(** Handled one after the other, calls never store a second match for two
    id strings: the bound on the match count holds in every store reached
    from the empty one. *)
Lemma at_most_one_match_run (validate_email : string -> option string) calls s :
  at_most_one_match s -> at_most_one_match (run validate_email calls s).
Proof.
  revert s. induction calls as [|c calls IH]; intros s Hs; [done|].
  cbn [run fold_left]. apply IH.
  assert (forall s', same_swipes_matches s s' -> at_most_one_match s') as Hsame.
  { intros s' [_ Hma] a b. unfold match_count. rewrite Hma. apply Hs. }
  destruct c; cbn [handle].
  - apply Hsame, send_magic_link_same.
  - apply Hsame, verify_magic_link_same.
  - apply Hsame, create_or_update_profile_same.
  - intros a b. destruct (swipe_appends s user_id payload) as (_ & [Hm|(H0 & i & Hm)]);
      unfold match_count in *; rewrite Hm; [apply Hs|].
    rewrite match_count_snoc.
    destruct (decide (match_between a b _)) as [Hnew|]; [|specialize (Hs a b); unfold match_count in Hs; lia].
    assert (length (filter (match_between a b) (matches s))
            = length (filter (match_between user_id (SwipeRequest.target_id payload))
                        (matches s))) as Heq.
    { f_equal. apply list_filter_iff. intros d.
      unfold match_between in *. simpl in Hnew. intuition congruence. }
    lia.
  - apply Hsame, send_message_same.
  - apply Hsame, report_same.
Qed.

Lemma at_most_one_match_empty : at_most_one_match empty_store.
Proof. intros a b. unfold match_count. simpl. lia. Qed.

(** * Further properties of the handlers *)

(** ** Swipes and matches *)

(** X1. A swipe whose direction is not ["right"] never touches the match
    collection, whatever swipes are already stored: a left swipe is
    recorded and answered with [match = false]; any other direction is
    refused with a 400 and nothing at all is recorded. *)
Theorem swipe_not_right_never_matches s u t direction :
  direction <> "right" ->
  matches (snd (swipe u (SwipeRequest.mk t direction) s)) = matches s
  /\ (direction = "left" ->
      swipe u (SwipeRequest.mk t direction) s
      = (Ok (SwipeResponse.mk "swiped" false),
         snd (create_document c_swipe (Swipe.mk u t "left") s)))
  /\ (direction <> "left" ->
      swipe u (SwipeRequest.mk t direction) s
      = (Raise (HTTPException 400 "Invalid direction"), s)).
Proof.
  intros Hr. destruct (decide (direction = "left")) as [->|Hl].
  - rewrite swipe_left. split; [reflexivity|]. split; [reflexivity|done].
  - rewrite swipe_invalid by done. split; [reflexivity|]. split; [done|reflexivity].
Qed.

Lemma swipe_not_right_never_matches_witness :
  matches (snd (swipe (str 3) (SwipeRequest.mk (str 1) "left")
                  (snd (swipe (str 1) (SwipeRequest.mk (str 3) "right") profiled_store))))
  = [].
Proof.
  apply (swipe_not_right_never_matches
           (snd (swipe (str 1) (SwipeRequest.mk (str 3) "right") profiled_store))
           (str 3) (str 1) "left").
  discriminate.
Defined.

Lemma is_Some_head_filter_snoc {A} (P : doc A -> Prop) `{!forall d, Decision (P d)}
    (l : list (doc A)) x :
  is_Some (head (filter P (l ++ [x]))) <-> is_Some (head (filter P l)) \/ P x.
Proof.
  rewrite filter_app, filter_cons, filter_nil.
  destruct (filter P l) as [|y k]; simpl.
  - destruct (decide (P x)); simpl; split.
    + by right.
    + eauto.
    + by intros [? [=]].
    + intros [[? [=]]|?]; done.
  - split; eauto.
Qed.

(** X2. A right swipe reports a match exactly when the target had already
    swiped right on the caller, or is the caller; when it reports one, a
    match record between the two is stored afterwards, and when it does not,
    the match collection is left as it was. The swipe itself is recorded in
    every case, whether or not the same swipe was recorded before. *)
Theorem swipe_right_match_iff s u t :
  exists is_match,
    fst (swipe u (SwipeRequest.mk t "right") s) = Ok (SwipeResponse.mk "swiped" is_match)
    /\ (is_match = true
        <-> u = t \/ is_Some (find_one c_swipe (right_swipe t u) s))
    /\ (is_match = true ->
        (1 <= match_count u t (snd (swipe u (SwipeRequest.mk t "right") s)))%nat)
    /\ (is_match = false ->
        matches (snd (swipe u (SwipeRequest.mk t "right") s)) = matches s)
    /\ swipes (snd (swipe u (SwipeRequest.mk t "right") s))
       = swipes s ++ [Doc (next_id s) (Swipe.mk u t "right")].
Proof.
  destruct (swipe_right_cases s u t) as (Hsw & _ & Hcase). cbv zeta in *.
  set (r := swipe u (SwipeRequest.mk t "right") s) in *.
  assert (is_Some (find_one c_swipe (right_swipe t u) (snd r))
          <-> u = t \/ is_Some (find_one c_swipe (right_swipe t u) s)) as Hrec.
  { unfold find_one, find. cbn [db]. rewrite Hsw, is_Some_head_filter_snoc.
    unfold right_swipe. simpl. intuition congruence. }
  destruct Hcase as [(Hr & Hsome & Hm)|(Hr & Hnone & Hm)].
  - exists true. split; [done|]. split; [by rewrite <- Hrec|]. split; [|done].
    intros _. unfold match_count in *.
    destruct Hm as [[Hpos ->]|[_ ->]]; [done|].
    rewrite match_count_snoc, decide_True by (by left). lia.
  - exists false. split; [done|]. split; [|done].
    split; [done|]. intros Hut. apply Hrec in Hut. rewrite Hnone in Hut. by destruct Hut.
Qed.

Lemma swipe_keeps_backing s u payload :
  backed_by_swipes s -> backed_by_swipes (snd (swipe u payload s)).
Proof.
  intros Hb. destruct payload as [t direction].
  assert (forall k s', swipes s' = swipes s ++ k ->
            Forall (fun m =>
              is_Some (find_one c_swipe
                         (right_swipe (Match.user_a (body m)) (Match.user_b (body m))) s')
              /\ is_Some (find_one c_swipe
                            (right_swipe (Match.user_b (body m)) (Match.user_a (body m))) s'))
              (matches s)) as Hold.
  { intros k s' Hsw. eapply Forall_impl; [exact Hb|]. intros m [H1 H2].
    unfold find_one, find in *. cbn [db] in *. rewrite Hsw.
    split; by apply find_one_app. }
  destruct (decide (direction = "right")) as [->|Hr].
  - destruct (swipe_right_cases s u t) as (Hsw & _ & Hcase). cbv zeta in *.
    set (r := swipe u (SwipeRequest.mk t "right") s) in *.
    specialize (Hold _ (snd r) Hsw). unfold backed_by_swipes.
    destruct Hcase as [(_ & Hrec & [[_ ->]|[_ ->]])|(_ & _ & ->)]; [done| |done].
    apply Forall_app. split; [done|]. constructor; [|constructor]. simpl.
    split; [|done].
    unfold find_one, find. cbn [db]. rewrite Hsw. apply is_Some_head_filter_snoc. by right.
  - destruct (decide (direction = "left")) as [->|Hl].
    + rewrite swipe_left. by apply (Hold [Doc (next_id s) (Swipe.mk u t "left")]).
    + rewrite swipe_invalid by done. apply (Hold []). by rewrite app_nil_r.
Qed.

Section MatchInvariants.
Variable validate_email : string -> option string.

Lemma handle_keeps_backing c s :
  backed_by_swipes s -> backed_by_swipes (handle validate_email c s).
Proof.
  intros Hb.
  assert (forall s', same_swipes_matches s s' -> backed_by_swipes s') as Hsame.
  { intros s' [Hsw Hma]. unfold backed_by_swipes, find_one, find in *.
    cbn [db] in *. by rewrite Hsw, Hma. }
  destruct c; cbn [handle].
  - apply Hsame, send_magic_link_same.
  - apply Hsame, verify_magic_link_same.
  - apply Hsame, create_or_update_profile_same.
  - by apply swipe_keeps_backing.
  - apply Hsame, send_message_same.
  - apply Hsame, report_same.
Qed.

(** X3. Matches are only ever stored on mutual interest: if every match
    record is backed by a right swipe in each direction between its two
    users, this is still so after any sequence of calls. *)
Theorem matches_stay_backed_by_swipes calls s :
  backed_by_swipes s -> backed_by_swipes (run validate_email calls s).
Proof.
  revert s. induction calls as [|c calls IH]; intros s Hb; [done|].
  cbn [run fold_left]. by apply IH, handle_keeps_backing.
Qed.

(** X4. Handled one after the other from the empty store, the calls never
    store a second match record between the same two id strings, in either
    order. Ids are compared as the strings the callers gave, as the match
    lookup of [swipe] does: two spellings of one identifier are two strings,
    and each pair of strings has its own bound. *)
Theorem one_match_per_pair calls a b :
  (match_count a b (run validate_email calls empty_store) <= 1)%nat.
Proof.
  apply at_most_one_match_run, at_most_one_match_empty.
Qed.
End MatchInvariants.

Lemma matches_stay_backed_by_swipes_witness :
  backed_by_swipes
    (run example_validate_email
       [call_swipe (str 1) (SwipeRequest.mk (str 3) "right");
        call_swipe (str 3) (SwipeRequest.mk (str 1) "right");
        call_swipe (str 3) (SwipeRequest.mk (str 1) "left")]
       profiled_store).
Proof.
  apply (matches_stay_backed_by_swipes example_validate_email). constructor.
Defined.


(** ** Nothing is ever removed *)

#[local] Instance grows_preorder : PreOrder grows.
Proof.
  split.
  - intros s. repeat split; reflexivity.
  - intros s1 s2 s3 (Ha & Hb & Hc & Hd & He) (Ha' & Hb' & Hc' & Hd' & He').
    repeat split; try (etransitivity; eassumption).
    intros A c. etransitivity; [apply Ha|apply Ha'].
Qed.

Lemma update_first_ids {A} (P : doc A -> Prop) `{!forall d, Decision (P d)}
    (f : A -> A) (l : list (doc A)) :
  _id <$> update_first P f l = _id <$> l.
Proof.
  induction l as [|x l IH]; [done|]. cbn [update_first].
  destruct (decide (P x)); [done|]. rewrite !fmap_cons. by rewrite IH.
Qed.

Lemma insert_one_grows {A} (c : collection A) data : respects grows (insert_one c data).
Proof.
  intros s. unfold insert_one. split.
  - intros B c'. destruct c, c'; simpl; try reflexivity;
      rewrite fmap_app; by apply prefix_app_r.
  - destruct c; simpl; repeat split; try reflexivity; by apply prefix_app_r.
Qed.

Lemma update_one_grows {A} (c : collection A) (P : doc A -> Prop)
    `{!forall d, Decision (P d)} (f : A -> A) :
  append_only c = false -> respects grows (update_one c P f).
Proof.
  intros Hc s. unfold update_one. split.
  - intros B c'. destruct c, c'; simpl; try reflexivity; try discriminate;
      by rewrite update_first_ids.
  - destruct c; try discriminate; simpl; repeat split; reflexivity.
Qed.

Ltac respects_grows :=
  cbv zeta; repeat respects_step;
  first [apply insert_one_grows | by apply update_one_grows].

Section NothingRemoved.
Variable validate_email : string -> option string.

Lemma handle_grows c s : grows s (handle validate_email c s).
Proof.
  destruct c; cbn [handle].
  - revert s. change (respects grows (send_magic_link validate_email payload token now)).
    unfold send_magic_link, new_Verification. respects_grows.
  - revert s. change (respects grows (verify_magic_link validate_email payload now)).
    unfold verify_magic_link. respects_grows.
  - revert s. change (respects grows (create_or_update_profile user_id payload now)).
    unfold create_or_update_profile. respects_grows.
  - revert s. change (respects grows (swipe user_id payload)).
    unfold swipe. respects_grows.
  - revert s. change (respects grows (send_message user_id payload)).
    unfold send_message. respects_grows.
  - revert s.
    change (respects grows (report user_id target_user_id target_message_id reason details)).
    unfold report. respects_grows.
Qed.

(** X5. No call ever removes or reorders a stored document: after any
    sequence of calls every collection still begins with the identifiers it
    had, in the same order, and the swipes, matches, messages and reports
    that were stored are still there unchanged, in front of the new ones. *)
Theorem nothing_is_removed calls s : grows s (run validate_email calls s).
Proof.
  revert s. induction calls as [|c calls IH]; intros s; [reflexivity|].
  cbn [run fold_left]. etransitivity; [apply handle_grows|apply IH].
Qed.
End NothingRemoved.

(** ** Users *)

#[local] Instance same_identities_preorder : PreOrder same_identities.
Proof.
  split; unfold same_identities.
  - by intros s.
  - intros s1 s2 s3 H1 H2. congruence.
Qed.

Lemma insert_one_same_identities {A} (c : collection A) data :
  not_user c = true -> respects same_identities (insert_one c data).
Proof. intros Hc s. by destruct c. Qed.

Lemma update_first_identity (P : doc User.t -> Prop) `{!forall d, Decision (P d)}
    (f : User.t -> User.t) (l : list (doc User.t)) :
  (forall i u, identity (Doc i (f u)) = identity (Doc i u)) ->
  identity <$> update_first P f l = identity <$> l.
Proof.
  intros Hf. induction l as [|x l IH]; [done|]. cbn [update_first].
  destruct (decide (P x)).
  - rewrite !fmap_cons. f_equal. destruct x. apply Hf.
  - rewrite !fmap_cons. by rewrite IH.
Qed.

Lemma update_one_same_identities {A} (c : collection A) (P : doc A -> Prop)
    `{!forall d, Decision (P d)} (f : A -> A) :
  keeps_identity c f -> respects same_identities (update_one c P f).
Proof.
  intros Hf s. unfold update_one, same_identities.
  destruct c; try reflexivity. simpl. by apply update_first_identity.
Qed.

Ltac respects_identities :=
  cbv zeta; repeat respects_step;
  first [ by apply insert_one_same_identities
        | by apply update_one_same_identities ].

Lemma create_or_update_profile_same_identities user_id payload now :
  respects same_identities (create_or_update_profile user_id payload now).
Proof. unfold create_or_update_profile. respects_identities. Qed.

Lemma swipe_same_identities user_id payload :
  respects same_identities (swipe user_id payload).
Proof. unfold swipe. respects_identities. Qed.

Lemma send_message_same_identities user_id payload :
  respects same_identities (send_message user_id payload).
Proof. unfold send_message. respects_identities. Qed.

Lemma report_same_identities user_id target_user_id target_message_id reason details :
  respects same_identities
    (report user_id target_user_id target_message_id reason details).
Proof. unfold report. respects_identities. Qed.

Section UserFacts.
Variable validate_email : string -> option string.

Lemma send_magic_link_same_identities payload token now :
  respects same_identities (send_magic_link validate_email payload token now).
Proof. unfold send_magic_link, new_Verification. respects_identities. Qed.

(** What [verify_magic_link] does to the user collection: nothing, or one
    new user for an address no stored user has. *)
Lemma verify_magic_link_users payload now s :
  let s' := snd (verify_magic_link validate_email payload now s) in
  let email := lower (VerifyMagicLinkRequest.email payload) in
  users s' = users s
  \/ (users s' = users s ++ [Doc (next_id s) (new_User email)]
      /\ Forall (fun u => User.email (body u) <> email) (users s)).
Proof.
  cbv zeta. unfold verify_magic_link.
  destruct (negb _); [by left|].
  unfold bind, query.
  destruct (last _) as [rec|]; [|by left].
  destruct (_ <? _)%Z; [by left|].
  destruct (find_one c_user _ s) as [u|] eqn:Eu; [by left|].
  right. split; [reflexivity|].
  by apply find_one_None in Eu.
Qed.
End UserFacts.

Section UserInvariants.
Variable validate_email : string -> option string.

(** One call: the users keep their identities, and at most one user is
    added, by [verify_magic_link], active, not banned, with a new address. *)
Lemma handle_users c s :
  identity <$> users (handle validate_email c s) = identity <$> users s
  \/ exists email,
       users (handle validate_email c s) = users s ++ [Doc (next_id s) (new_User email)]
       /\ Forall (fun u => User.email (body u) <> email) (users s).
Proof.
  destruct c; cbn [handle].
  - left. apply send_magic_link_same_identities.
  - destruct (verify_magic_link_users validate_email payload now s) as [->|[Hu Hnew]];
      [by left|right; eauto].
  - left. apply create_or_update_profile_same_identities.
  - left. apply swipe_same_identities.
  - left. apply send_message_same_identities.
  - left. apply report_same_identities.
Qed.

(** X6. No call changes or removes a stored user's identifier, address,
    active flag or ban flag, and every user a call adds is active and not
    banned: after any sequence of calls the identities of the users are the
    former ones, in order, followed by those of new, unbanned users. *)
Theorem user_identities_kept calls s :
  exists added,
    identity <$> users (run validate_email calls s) = (identity <$> users s) ++ added
    /\ Forall (fun i => i.1.2 = true /\ i.2 = false) added.
Proof.
  revert s. induction calls as [|c calls IH]; intros s.
  - exists []. by rewrite app_nil_r.
  - change (run validate_email (c :: calls) s)
      with (run validate_email calls (handle validate_email c s)).
    destruct (IH (handle validate_email c s)) as (added & Hrun & Hadded).
    destruct (handle_users c s) as [Hsame|(email & Hu & _)].
    + exists added. by rewrite Hrun, Hsame.
    + exists (identity (Doc (next_id s) (new_User email)) :: added).
      rewrite Hrun, Hu, fmap_app, <- app_assoc. split; [done|].
      constructor; [done|exact Hadded].
Qed.

(** X7. Addresses stay unique: if no two stored users share an address,
    none do after any sequence of calls. *)
Theorem unique_emails_kept calls s :
  unique_emails s -> unique_emails (run validate_email calls s).
Proof.
  revert s. induction calls as [|c calls IH]; intros s Hs; [done|].
  cbn [run fold_left]. apply IH. unfold unique_emails in *.
  assert (forall l : list (doc User.t),
            (fun u => User.email (body u)) <$> l = (fun i => i.1.1.2) <$> (identity <$> l))
    as Hemail.
  { intros l. rewrite <- list_fmap_compose. done. }
  destruct (handle_users c s) as [Hsame|(email & Hu & Hnew)].
  - rewrite Hemail, Hsame, <- Hemail. done.
  - rewrite Hu, fmap_app. apply NoDup_app. split; [done|]. split.
    + intros e He Hin. apply list_elem_of_singleton in Hin. subst e.
      apply list_elem_of_fmap in He as (u & He & Hin).
      rewrite Forall_forall in Hnew. by apply (Hnew u).
    + apply NoDup_singleton.
Qed.
End UserInvariants.

Lemma unique_emails_kept_witness :
  unique_emails
    (run example_validate_email
       [call_send_magic_link (SendMagicLinkRequest.mk "alice@polito.it" "login") "t" 5;
        call_verify_magic_link (VerifyMagicLinkRequest.mk "ALICE@polito.it" "t") 6;
        call_create_or_update_profile (str 1) (example_profile None true 4) 7]
       alice_bob_store).
Proof.
  apply (unique_emails_kept example_validate_email).
  unfold unique_emails. apply (bool_decide_eq_true_1 _). vm_compute. reflexivity.
Defined.

(** ** Allowed domains *)

Lemma lower_ascii_at c : lower_ascii c = "@"%char <-> c = "@"%char.
Proof.
  destruct c as [[] [] [] [] [] [] [] []]; vm_compute; split; congruence.
Qed.

Lemma lower_cons c s : lower (String c s) = String (lower_ascii c) (lower s).
Proof. reflexivity. Qed.

Lemma prefix_empty s : String.prefix "" s = true.
Proof. by destruct s. Qed.

Lemma contains_at_cons c s :
  contains "@" (String c s) = bool_decide (c = "@"%char) || contains "@" s.
Proof.
  cbn [contains String.prefix]. rewrite prefix_empty.
  destruct (ascii_dec "@" c) as [<-|Hne]; [done|].
  by rewrite bool_decide_false by congruence.
Qed.

Lemma contains_at_lower s : contains "@" (lower s) = contains "@" s.
Proof.
  induction s as [|c s IH]; [done|].
  rewrite lower_cons, !contains_at_cons, IH. f_equal.
  apply bool_decide_ext, lower_ascii_at.
Qed.

Lemma substring_head_contains i m s c t :
  String.substring i (S m) s = String c t -> contains (String c "") s = true.
Proof.
  revert i. induction s as [|a s IH]; intros i.
  - by destruct i.
  - destruct i as [|i].
    + cbn [String.substring]. intros [= <- _].
      cbn [contains String.prefix]. rewrite prefix_empty.
      by destruct (ascii_dec a a).
    + cbn [String.substring]. intros Hs. apply IH in Hs.
      cbn [contains]. rewrite Hs. apply orb_true_r.
Qed.

Lemma endswith_at s d : contains "@" s = false -> endswith s ("@" +:+ d) = false.
Proof.
  intros Hno. unfold endswith. apply andb_false_iff. right.
  apply String.eqb_neq. intros Hs.
  change ("@" +:+ d) with (String "@" d) in Hs. cbn [String.length] in Hs.
  apply substring_head_contains in Hs. congruence.
Qed.

Section DomainFacts.
Variable validate_email : string -> option string.

(** X8. An address is accepted exactly when the validator accepts it and
    its domain, lower-cased, is [polito.it] or [unito.it] itself: upper case
    is accepted and a subdomain is not. The [endswith("@" + d)] alternative
    never decides anything, since a validated domain holds no [@]. *)
Theorem is_valid_domain_iff email :
  (forall v, validate_email email = Some v -> contains "@" v = false) ->
  is_valid_domain validate_email email = true
  <-> exists v, validate_email email = Some v
                /\ (lower v = "polito.it" \/ lower v = "unito.it").
Proof.
  intros Hat. unfold is_valid_domain.
  destruct (validate_email email) as [v|]; [|split; [discriminate|by intros (? & [=] & _)]].
  specialize (Hat v eq_refl). rewrite <- contains_at_lower in Hat.
  rewrite orb_true_iff, !bool_decide_eq_true. unfold set_Exists, ALLOWED_DOMAINS.
  split.
  - intros [(d & Hd & [Heq|Hend])|Hin].
    + exists v. split; [done|].
      rewrite elem_of_union, !elem_of_singleton in Hd. destruct Hd; subst; eauto.
    + by rewrite endswith_at in Hend.
    + exists v. split; [done|].
      by rewrite elem_of_union, !elem_of_singleton in Hin.
  - intros (v' & [= <-] & Hv). right.
    by rewrite elem_of_union, !elem_of_singleton.
Qed.
End DomainFacts.

Lemma is_valid_domain_iff_witness :
  is_valid_domain example_validate_email "USER@POLITO.IT" = true
  <-> exists v, example_validate_email "USER@POLITO.IT" = Some v
                /\ (lower v = "polito.it" \/ lower v = "unito.it").
Proof.
  apply (is_valid_domain_iff example_validate_email "USER@POLITO.IT").
  intros v Hv. vm_compute in Hv. injection Hv as <-. reflexivity.
Defined.

(** ** Magic links: refusals *)

Section AuthRefusals.
Variable validate_email : string -> option string.

(** X9. [send_magic_link] fails in two ways only, and stores nothing when
    it does: a 400 for an address outside the allowed domains, tested
    first, and otherwise an unhandled [ValidationError], not a 4xx, for a
    [purpose] other than ["login"] and ["signup"], which the request model
    lets through as any string. When it succeeds, the response carries the
    token and the expiry [now + 900], and the store changes by exactly one
    verification record, unused, appended last. *)
Theorem send_magic_link_outcomes payload token now s :
  let email := lower (SendMagicLinkRequest.email payload) in
  let purpose := SendMagicLinkRequest.purpose payload in
  let r := send_magic_link validate_email payload token now s in
  (is_valid_domain validate_email email = false ->
   r = (Raise (HTTPException 400
                 "Email domain not allowed. Use your student email (polito/unito)."), s))
  /\ (is_valid_domain validate_email email = true ->
      purpose <> "login" -> purpose <> "signup" ->
      r = (Raise ValidationError, s))
  /\ (forall resp s', r = (Ok resp, s') ->
      resp = SendMagicLinkResponse.mk "Magic link created" token (now + 900)
      /\ s' = Store (users s) (profiles s)
                (verifications s
                 ++ [Doc (next_id s) (Verification.mk email token purpose false (now + 900))])
                (swipes s) (matches s) (messages s) (reports s) (N.succ (next_id s))).
Proof.
  intros email purpose r. subst r. unfold send_magic_link, new_Verification.
  fold email purpose.
  destruct (is_valid_domain validate_email email).
  - cbn [negb].
    destruct (bool_decide (purpose ∈ ({[ "login"; "signup" ]} : gset string))) eqn:Ep.
    + apply bool_decide_eq_true in Ep. rewrite elem_of_union, !elem_of_singleton in Ep.
      split; [discriminate|]. split; [intros _ ? ?; tauto|].
      intros resp s' [= <- <-]. done.
    + split; [discriminate|]. split; [done|]. discriminate.
  - cbn [negb]. split; [done|]. split; discriminate.
Qed.

(** X10. Whenever [verify_magic_link] fails, it fails with a 400 and leaves
    the store as it was: the token is not consumed and no user is created.
    It fails with "Invalid or used token" when no unused record matches the
    address and the token, and with "Token expired" when the last such
    record has expired, even if an earlier one has not. *)
Theorem verify_magic_link_failures payload now s :
  let email := lower (VerifyMagicLinkRequest.email payload) in
  let recs :=
    get_documents c_verification
      (pending email (VerifyMagicLinkRequest.token payload)) s in
  let r := verify_magic_link validate_email payload now s in
  (forall e s', r = (Raise e, s') -> s' = s /\ exists detail, e = HTTPException 400 detail)
  /\ (is_valid_domain validate_email email = true -> recs = [] ->
      r = (Raise (HTTPException 400 "Invalid or used token"), s))
  /\ (forall rec,
        is_valid_domain validate_email email = true -> last recs = Some rec ->
        (Verification.expires_at (body rec) < now)%Z ->
        r = (Raise (HTTPException 400 "Token expired"), s)).
Proof.
  intros email recs r. subst r. unfold verify_magic_link. fold email.
  destruct (is_valid_domain validate_email email); cbn [negb].
  2:{ split; [|split; [discriminate|intros; discriminate]].
      intros e s' [= <- <-]. eauto. }
  unfold bind, query. fold recs.
  destruct (last recs) as [rec|] eqn:Elast.
  - destruct (Verification.expires_at (body rec) <? now)%Z eqn:Eexp.
    + split; [intros e s' [= <- <-]; eauto|].
      split; [intros _ Hnil; by rewrite Hnil in Elast|]. done.
    + split.
      { destruct (find_one c_user _ s); discriminate. }
      split; [intros _ Hnil; by rewrite Hnil in Elast|].
      intros rec' _ [= <-] Hlt. lia.
  - split; [intros e s' [= <- <-]; eauto|]. split; [done|]. discriminate.
Qed.
End AuthRefusals.

Lemma send_magic_link_outcomes_witness :
  send_magic_link example_validate_email
    (SendMagicLinkRequest.mk "alice@polito.it" "reset") "token-a" 0 empty_store
  = (Raise ValidationError, empty_store).
Proof.
  apply (proj1 (proj2 (send_magic_link_outcomes example_validate_email
                         (SendMagicLinkRequest.mk "alice@polito.it" "reset")
                         "token-a" 0 empty_store))).
  - vm_compute. reflexivity.
  - discriminate.
  - discriminate.
Defined.

Lemma verify_magic_link_failures_witness :
  verify_magic_link example_validate_email
    (VerifyMagicLinkRequest.mk "alice@polito.it" "token-a") 901
    (snd (send_magic_link example_validate_email
            (SendMagicLinkRequest.mk "alice@polito.it" "login") "token-a" 0 empty_store))
  = (Raise (HTTPException 400 "Token expired"),
     snd (send_magic_link example_validate_email
            (SendMagicLinkRequest.mk "alice@polito.it" "login") "token-a" 0 empty_store)).
Proof.
  eapply (proj2 (proj2 (verify_magic_link_failures example_validate_email
                          (VerifyMagicLinkRequest.mk "alice@polito.it" "token-a") 901
                          (snd (send_magic_link example_validate_email
                                  (SendMagicLinkRequest.mk "alice@polito.it" "login")
                                  "token-a" 0 empty_store))))).
  - vm_compute. reflexivity.
  - vm_compute. reflexivity.
  - vm_compute. reflexivity.
Defined.

Section VerifiedUser.
Variable validate_email : string -> option string.

(** X11. The identifier a successful [verify_magic_link] returns is the one
    of the first stored user with the (lower-cased) address, printed as 24
    hexadecimal digits; [ObjectId] reads it back as that identifier, so the
    other handlers find a user under it. *)
Theorem verify_magic_link_returns_user payload now s resp s' :
  store_ok s ->
  (next_id s < 2 ^ 96)%N ->
  verify_magic_link validate_email payload now s = (Ok resp, s') ->
  exists u,
    find_one c_user
      (fun d => User.email (body d) = lower (VerifyMagicLinkRequest.email payload)) s'
    = Some u
    /\ VerifyResponse.user_id resp = str (_id u)
    /\ ObjectId (VerifyResponse.user_id resp) = Some (_id u)
    /\ user_exists s' (VerifyResponse.user_id resp).
Proof.
  intros Hok Hnext. unfold verify_magic_link.
  destruct (negb _); [discriminate|].
  unfold bind, query.
  destruct (last _) as [rec|]; [|discriminate].
  destruct (_ <? _)%Z; [discriminate|].
  destruct (find_one c_user _ s) as [u|] eqn:Eu.
  - intros [= <- <-]. cbn [VerifyResponse.user_id].
    pose proof Eu as Hu. apply find_one_Some in Hu as [Hin _].
    assert (_id u < 2 ^ 96)%N as Hlt.
    { pose proof (Hok _ c_user) as Hall. rewrite Forall_forall in Hall.
      specialize (Hall u Hin). simpl in Hall. lia. }
    exists u. split; [exact Eu|]. split; [done|].
    split; [by apply ObjectId_str|].
    exists (_id u). split; [by apply ObjectId_str|].
    by apply (find_one_is_Some c_user _ _ u).
  - intros [= <- <-]. cbn [VerifyResponse.user_id].
    exists (Doc (next_id s) (new_User (lower (VerifyMagicLinkRequest.email payload)))).
    apply find_one_None in Eu.
    assert (forall P `{!forall d, Decision (P d)} st,
              users st = users s ++ [Doc (next_id s)
                 (new_User (lower (VerifyMagicLinkRequest.email payload)))] ->
              P (Doc (next_id s) (new_User (lower (VerifyMagicLinkRequest.email payload)))) ->
              is_Some (find_one c_user P st)) as Hfind.
    { intros P ? st Hst HP. unfold find_one, find. cbn [db]. rewrite Hst.
      apply is_Some_head_filter_snoc. by right. }
    split.
    { unfold find_one, find. cbn. rewrite filter_app, (filter_none _ _ Eu).
      by rewrite filter_cons_True. }
    split; [done|]. split; [by apply ObjectId_str|].
    exists (next_id s). split; [by apply ObjectId_str|].
    by apply Hfind.
Qed.
End VerifiedUser.

Lemma verify_magic_link_returns_user_witness :
  exists u,
    find_one c_user (fun d => User.email (body d) = lower "Alice@polito.it") alice_store
    = Some u
    /\ str 1 = str (_id u)
    /\ ObjectId (str 1) = Some (_id u)
    /\ user_exists alice_store (str 1).
Proof.
  apply (verify_magic_link_returns_user example_validate_email
           (VerifyMagicLinkRequest.mk "Alice@polito.it" "token-a") 0
           (snd (send_magic_link example_validate_email
                   (SendMagicLinkRequest.mk "alice@polito.it" "login") "token-a" 0
                   empty_store))
           (VerifyResponse.mk "Verified" (str 1)) alice_store).
  - apply send_magic_link_keeps_ok, store_ok_empty.
  - vm_compute. reflexivity.
  - vm_compute. reflexivity.
Defined.

(** ** Profiles: what a save stores *)

Lemma lower_ascii_idem c : lower_ascii (lower_ascii c) = lower_ascii c.
Proof. destruct c as [[] [] [] [] [] [] [] []]; reflexivity. Qed.

Lemma lower_idem s : lower (lower s) = lower s.
Proof.
  induction s as [|c s IH]; [done|].
  by rewrite !lower_cons, lower_ascii_idem, IH.
Qed.

Lemma lower_empty s : String.eqb (lower s) "" = String.eqb s "".
Proof. by destruct s. Qed.

(** X12. The banned-word test does not depend on letter case, and it is a
    substring test: a bio that contains a banned word anywhere, in any mix
    of cases, is refused. A missing or empty bio is never refused. *)
Theorem bio_prohibited_case_insensitive :
  bio_prohibited None = false
  /\ bio_prohibited (Some "") = false
  /\ (forall bio, bio_prohibited (Some bio) = bio_prohibited (Some (lower bio)))
  /\ (forall bio w, w ∈ BANNED_WORDS -> contains w (lower bio) = true ->
        bio_prohibited (Some bio) = true).
Proof.
  split; [done|]. split; [done|]. split.
  - intros bio. unfold bio_prohibited. by rewrite lower_idem, lower_empty.
  - intros bio w Hw Hc. unfold bio_prohibited. apply andb_true_iff. split.
    + apply negb_true_iff, String.eqb_neq. intros ->.
      unfold BANNED_WORDS in Hw. rewrite !elem_of_union, !elem_of_singleton in Hw.
      destruct Hw as [[->| ->]| ->]; discriminate.
    + apply bool_decide_eq_true. by exists w.
Qed.

Lemma bio_prohibited_case_insensitive_witness :
  bio_prohibited (Some "No BadWords here") = true.
Proof.
  apply (proj2 (proj2 (proj2 bio_prohibited_case_insensitive)) _ "badword").
  - unfold BANNED_WORDS. rewrite !elem_of_union, !elem_of_singleton. by right.
  - vm_compute. reflexivity.
Defined.

(** A profile save, in full: refused with the store untouched; or the user
    updated and the profile document stored over the user's first profile,
    or appended when there is none; or, when the document cannot be
    encoded, the user updated and [OverflowError] raised. *)
Lemma create_or_update_profile_effect user_id payload now s :
  let r := create_or_update_profile user_id payload now s in
  (exists e, r = (Raise e, s))
  \/ exists oid u,
       bio_prohibited (CreateProfileRequest.bio payload) = false
       /\ (MIN_PHOTOS <= length (CreateProfileRequest.photos payload) <= MAX_PHOTOS)%nat
       /\ ObjectId user_id = Some oid
       /\ find_one c_user (fun d => _id d = oid) s = Some u
       /\ let s1 :=
            db_set c_user
              (update_first (fun d => _id d = oid) (profile_user payload) (users s)) s in
          if encodable (profile_doc user_id payload now) then
            match find_one c_profile (fun d => Profile.user_id (body d) = user_id) s with
            | Some p =>
                r = (Ok "Profile saved",
                     db_set c_profile
                       (update_first (fun d => _id d = _id p)
                          (fun _ => profile_doc user_id payload now) (profiles s)) s1)
            | None =>
                r = (Ok "Profile saved",
                     snd (insert_one c_profile (profile_doc user_id payload now) s1))
            end
          else r = (Raise OverflowError, s1).
Proof.
  cbv zeta. unfold create_or_update_profile.
  destruct (bio_prohibited _) eqn:Ebio; [left; by eexists|].
  destruct ((_ <? MIN_PHOTOS)%nat || _) eqn:Elen; [left; by eexists|].
  apply orb_false_iff in Elen as [E1 E2]. apply Nat.ltb_ge in E1. apply Nat.ltb_ge in E2.
  destruct (ObjectId user_id) as [oid|]; [|left; by eexists].
  unfold bind, query, update_one, bson_encode.
  destruct (find_one c_user _ s) as [u|] eqn:Eu; [|left; by eexists].
  right. exists oid, u. split; [done|]. split; [done|]. split; [done|]. split; [done|].
  rewrite take_all by done. unfold find_one, find. cbn [db db_set profiles].
  change (Profile.mk user_id _ _ _ _ _ _ _ now) with (profile_doc user_id payload now).
  destruct (encodable (profile_doc user_id payload now));
    destruct (head (filter _ (profiles s))) as [p|]; reflexivity.
Qed.

(** X13. The checks of a profile save come in a fixed order, and each of
    these refusals leaves the store untouched: a prohibited bio is a 400
    whatever else is wrong; then, with an acceptable bio and 3 to 8 photos,
    a [user_id] that [ObjectId] refuses ends in an unhandled [InvalidId],
    and one it accepts, under which no user is stored, in the 404 "User not
    found". [ObjectId] refuses a string that is not 24 characters long or
    that [bytes.fromhex] cannot read; it accepts 24 characters with blanks
    between the bytes, which then get the 404. *)
Theorem profile_save_refusals user_id payload now s :
  (bio_prohibited (CreateProfileRequest.bio payload) = true ->
   create_or_update_profile user_id payload now s
   = (Raise (HTTPException 400 "Bio contains prohibited content"), s))
  /\ (bio_prohibited (CreateProfileRequest.bio payload) = false ->
      (MIN_PHOTOS <= length (CreateProfileRequest.photos payload) <= MAX_PHOTOS)%nat ->
      (ObjectId user_id = None ->
       create_or_update_profile user_id payload now s = (Raise InvalidId, s))
      /\ (forall oid,
            ObjectId user_id = Some oid ->
            find_one c_user (fun d => _id d = oid) s = None ->
            create_or_update_profile user_id payload now s
            = (Raise (HTTPException 404 "User not found"), s))).
Proof.
  unfold create_or_update_profile. split.
  - by intros ->.
  - intros -> [H1 H2].
    replace ((_ <? MIN_PHOTOS)%nat || _) with false
      by (symmetry; apply orb_false_iff; split; apply Nat.ltb_ge; lia).
    split.
    + by intros ->.
    + intros oid -> Hnone. unfold bind, query. by rewrite Hnone.
Qed.

Lemma profile_save_refusals_witness :
  create_or_update_profile "alice" (example_profile None false 3) 0 alice_store
  = (Raise InvalidId, alice_store)
  /\ create_or_update_profile blank_id (example_profile None false 3) 0 alice_store
     = (Raise (HTTPException 404 "User not found"), alice_store).
Proof.
  split.
  - apply (proj2 (profile_save_refusals "alice" (example_profile None false 3) 0 alice_store)).
    + vm_compute. reflexivity.
    + vm_compute. lia.
    + vm_compute. reflexivity.
  - apply (proj2 (profile_save_refusals blank_id (example_profile None false 3) 0 alice_store))
      with (oid := (4 * 2 ^ 96 + 1)%N).
    + vm_compute. reflexivity.
    + vm_compute. lia.
    + vm_compute. reflexivity.
    + vm_compute. reflexivity.
Defined.

Lemma head_filter_update_same_id {A} (i : N) (f : A -> A) (l : list (doc A)) :
  head (filter (fun d => _id d = i) (update_first (fun d => _id d = i) f l))
  = (fun d => Doc (_id d) (f (body d))) <$> head (filter (fun d => _id d = i) l).
Proof.
  induction l as [|x l IH]; [done|]. cbn [update_first].
  destruct (decide (_id x = i)) as [Hx|Hx].
  - by rewrite !filter_cons_True.
  - by rewrite !filter_cons_False.
Qed.

Lemma head_filter_update_const {A} (Q : doc A -> Prop) `{!forall d, Decision (Q d)}
    (b : A) (l : list (doc A)) p :
  (forall i, Q (Doc i b)) ->
  head (filter Q l) = Some p ->
  head (filter Q (update_first (fun d => _id d = _id p) (fun _ => b) l))
  = Some (Doc (_id p) b).
Proof.
  intros Hb. induction l as [|x l IH]; [discriminate|].
  cbn [update_first]. destruct (decide (_id x = _id p)) as [Hx|Hx].
  - intros _. rewrite filter_cons_True by apply Hb. simpl. by rewrite Hx.
  - rewrite filter_cons. destruct (decide (Q x)) as [HQ|HQ].
    + simpl. intros [= ->]. done.
    + intros Hp. rewrite filter_cons_False by done. by apply IH.
Qed.

(** X14. A profile save that is accepted can be read back: afterwards the
    first profile stored for the [user_id] is the document built from the
    request, with the photos in the order given and numbered from 0, and
    the user found under the identifier has the name, residence and
    [allow_all_residences] of the request and its former address and
    account flags. *)
Theorem profile_save_read_back user_id payload now s msg s' :
  create_or_update_profile user_id payload now s = (Ok msg, s') ->
  msg = "Profile saved"
  /\ (exists p,
        find_one c_profile (fun d => Profile.user_id (body d) = user_id) s' = Some p
        /\ body p = profile_doc user_id payload now)
  /\ (exists oid u,
        ObjectId user_id = Some oid
        /\ find_one c_user (fun d => _id d = oid) s = Some u
        /\ find_one c_user (fun d => _id d = oid) s'
           = Some (Doc oid (profile_user payload (body u)))).
Proof.
  intros Hr.
  destruct (create_or_update_profile_effect user_id payload now s)
    as [[e He]|(oid & u & _ & _ & Hoid & Hu & Hcase)]; cbv zeta in *; [congruence|].
  assert (find_one c_user (fun d => _id d = oid)
            (db_set c_user
               (update_first (fun d => _id d = oid) (profile_user payload) (users s)) s)
          = Some (Doc oid (profile_user payload (body u)))) as Hu'.
  { unfold find_one, find in *. cbn [db db_set users] in *.
    rewrite head_filter_update_same_id, Hu. simpl.
    apply head_filter_Some in Hu as [_ ->]. done. }
  destruct (encodable (profile_doc user_id payload now)); [|congruence].
  destruct (find_one c_profile _ s) as [p|] eqn:Ep.
  - rewrite Hcase in Hr. injection Hr as <- <-. split; [done|]. split.
    + exists (Doc (_id p) (profile_doc user_id payload now)). split; [|done].
      unfold find_one, find in *. cbn [db db_set profiles] in *.
      by apply head_filter_update_const.
    + exists oid, u. split; [done|]. split; [done|]. exact Hu'.
  - rewrite Hcase in Hr. injection Hr as <- <-. split; [done|]. split.
    + exists (Doc (next_id s) (profile_doc user_id payload now)). split; [|done].
      apply find_one_None in Ep.
      unfold find_one, find. cbn. rewrite filter_app, (filter_none _ _ Ep).
      by rewrite filter_cons_True.
    + exists oid, u. split; [done|]. split; [done|]. exact Hu'.
Qed.

Lemma profile_save_read_back_witness :
  exists p,
    find_one c_profile (fun d => Profile.user_id (body d) = str 1)
      (with_profile (str 1) (example_profile (Some "r2") true 4) profiled_store)
    = Some p
    /\ body p = profile_doc (str 1) (example_profile (Some "r2") true 4) 0.
Proof.
  eapply (proj1 (proj2 (profile_save_read_back (str 1) (example_profile (Some "r2") true 4) 0
                          profiled_store "Profile saved" _ _))).
  Unshelve. vm_compute. reflexivity.
Defined.

(** ** Profiles: what every stored profile satisfies *)

#[local] Instance same_profiles_preorder : PreOrder same_profiles.
Proof.
  split; unfold same_profiles.
  - by intros s.
  - intros s1 s2 s3 H1 H2. congruence.
Qed.

Lemma insert_one_same_profiles {A} (c : collection A) data :
  not_profile c = true -> respects same_profiles (insert_one c data).
Proof. intros Hc s. by destruct c. Qed.

Lemma update_one_same_profiles {A} (c : collection A) (P : doc A -> Prop)
    `{!forall d, Decision (P d)} (f : A -> A) :
  not_profile c = true -> respects same_profiles (update_one c P f).
Proof. intros Hc s. by destruct c. Qed.

Ltac respects_profiles :=
  cbv zeta; repeat respects_step;
  first [ by apply insert_one_same_profiles
        | by apply update_one_same_profiles ].

Lemma swipe_same_profiles user_id payload : respects same_profiles (swipe user_id payload).
Proof. unfold swipe. respects_profiles. Qed.

Lemma send_message_same_profiles user_id payload :
  respects same_profiles (send_message user_id payload).
Proof. unfold send_message. respects_profiles. Qed.

Lemma report_same_profiles user_id target_user_id target_message_id reason details :
  respects same_profiles (report user_id target_user_id target_message_id reason details).
Proof. unfold report. respects_profiles. Qed.

Lemma photos_docs_order urls :
  Photo.order <$> photos_docs urls = seq 0 (length urls).
Proof.
  unfold photos_docs. rewrite fmap_imap.
  transitivity (imap (fun (j : nat) (_ : string) => j) urls); [by apply imap_ext|].
  rewrite (imap_seq_0 urls (fun i => i)). apply list_fmap_id.
Qed.

Lemma profile_doc_gallery user_id payload now :
  (MIN_PHOTOS <= length (CreateProfileRequest.photos payload) <= MAX_PHOTOS)%nat ->
  gallery_ok (profile_doc user_id payload now).
Proof.
  intros Hlen. unfold gallery_ok, profile_doc, photos_docs. cbn [Profile.photos].
  rewrite length_imap. split; [done|]. apply photos_docs_order.
Qed.

Lemma update_first_Forall_body {A} (P : doc A -> Prop) `{!forall d, Decision (P d)}
    (b : A) (Q : A -> Prop) (l : list (doc A)) :
  Q b -> Forall (fun d => Q (body d)) l ->
  Forall (fun d => Q (body d)) (update_first P (fun _ => b) l).
Proof.
  intros Hb. induction 1 as [|x l Hx Hl IH]; cbn [update_first]; [constructor|].
  destruct (decide (P x)); constructor; done.
Qed.

Section ProfileInvariants.
Variable validate_email : string -> option string.

Lemma send_magic_link_same_profiles payload token now :
  respects same_profiles (send_magic_link validate_email payload token now).
Proof. unfold send_magic_link, new_Verification. respects_profiles. Qed.

Lemma verify_magic_link_same_profiles payload now :
  respects same_profiles (verify_magic_link validate_email payload now).
Proof. unfold verify_magic_link. respects_profiles. Qed.

(** One call: the profiles are left alone, or one profile document built
    from an accepted request is written over a stored profile or appended. *)
Lemma handle_profiles c s :
  profiles (handle validate_email c s) = profiles s
  \/ exists user_id payload now,
       c = call_create_or_update_profile user_id payload now
       /\ (MIN_PHOTOS <= length (CreateProfileRequest.photos payload) <= MAX_PHOTOS)%nat
       /\ user_exists s user_id
       /\ match find_one c_profile (fun d => Profile.user_id (body d) = user_id) s with
          | Some p =>
              profiles (handle validate_email c s)
              = update_first (fun d => _id d = _id p)
                  (fun _ => profile_doc user_id payload now) (profiles s)
          | None =>
              profiles (handle validate_email c s)
              = profiles s ++ [Doc (next_id s) (profile_doc user_id payload now)]
          end.
Proof.
  destruct c; cbn [handle].
  - left. apply send_magic_link_same_profiles.
  - left. apply verify_magic_link_same_profiles.
  - destruct (create_or_update_profile_effect user_id payload now s)
      as [[e ->]|(oid & u & _ & Hlen & Hoid & Hu & Hcase)]; [by left|].
    cbv zeta in Hcase.
    destruct (encodable (profile_doc user_id payload now)); [|left; by rewrite Hcase].
    right. exists user_id, payload, now. split; [done|]. split; [done|].
    split; [exists oid; by rewrite Hu|].
    destruct (find_one c_profile _ s); rewrite Hcase; reflexivity.
  - left. apply swipe_same_profiles.
  - left. apply send_message_same_profiles.
  - left. apply report_same_profiles.
Qed.

(** X15. The photo rule is an invariant of the profile collection: if every
    stored profile has 3 to 8 photos, each numbered by its position, then so
    does every stored profile after any sequence of calls. *)
Theorem galleries_stay_ok calls s :
  Forall (fun p => gallery_ok (body p)) (profiles s) ->
  Forall (fun p => gallery_ok (body p)) (profiles (run validate_email calls s)).
Proof.
  revert s. induction calls as [|c calls IH]; intros s Hs; [done|].
  change (run validate_email (c :: calls) s)
    with (run validate_email calls (handle validate_email c s)).
  apply IH.
  destruct (handle_profiles c s)
    as [->|(user_id & payload & now & _ & Hlen & _ & Hcase)]; [done|].
  pose proof (profile_doc_gallery user_id payload now Hlen) as Hdoc.
  destruct (find_one c_profile _ s); rewrite Hcase.
  - by apply (update_first_Forall_body _ _ gallery_ok).
  - apply Forall_app. split; [done|]. by constructor.
Qed.
End ProfileInvariants.

Lemma galleries_stay_ok_witness :
  Forall (fun p => gallery_ok (body p))
    (profiles
       (run example_validate_email
          [call_create_or_update_profile (str 1) (example_profile None false 8) 1;
           call_create_or_update_profile (str 3) (example_profile None false 9) 2;
           call_create_or_update_profile (str 3) (example_profile None false 3) 3]
          alice_bob_store)).
Proof.
  apply (galleries_stay_ok example_validate_email). constructor.
Defined.

Lemma update_first_unique {A B} (g : A -> B) (b : A) (l : list (doc A)) p :
  NoDup (_id <$> l) -> p ∈ l -> g b = g (body p) ->
  (fun d => g (body d)) <$> update_first (fun d => _id d = _id p) (fun _ => b) l
  = (fun d => g (body d)) <$> l.
Proof.
  intros Hnd Hin Hg. induction l as [|x l IH]; [done|].
  rewrite fmap_cons in Hnd. apply NoDup_cons in Hnd as [Hx Hnd].
  cbn [update_first]. destruct (decide (_id x = _id p)) as [Hid|Hid].
  - rewrite !fmap_cons. f_equal. simpl.
    apply elem_of_cons in Hin as [->|Hin]; [done|].
    destruct Hx. rewrite Hid. by apply list_elem_of_fmap_2.
  - rewrite !fmap_cons. f_equal.
    apply elem_of_cons in Hin as [->|Hin]; [done|]. by apply IH.
Qed.

Section OneProfile.
Variable validate_email : string -> option string.

Lemma handle_keeps_ok c s : store_ok s -> store_ok (handle validate_email c s).
Proof.
  intros Hok. destruct c; cbn [handle].
  - by apply send_magic_link_keeps_ok.
  - by apply verify_magic_link_keeps_ok.
  - by apply create_or_update_profile_keeps_ok.
  - by apply swipe_keeps_ok.
  - by apply send_message_keeps_ok.
  - by apply report_keeps_ok.
Qed.

(** X16. A [user_id] string never gets a second profile: if the stored
    profiles have distinct identifiers below the store's next one and
    distinct [user_id] strings, they still do after any sequence of calls, a
    repeated save under the same string being written over the profile
    already stored. The handler looks the profile up by the [user_id] string
    of the request, so the bound is one profile per string, not per
    identifier: another spelling of the identifier is another string. *)
Theorem profiles_stay_one_per_user calls s :
  profiles_ok s -> profiles_ok (run validate_email calls s).
Proof.
  revert s. induction calls as [|c calls IH]; intros s Hs; [done|].
  change (run validate_email (c :: calls) s)
    with (run validate_email calls (handle validate_email c s)).
  apply IH. destruct Hs as (Hok & Hids & Huids).
  split; [by apply handle_keeps_ok|].
  destruct (handle_profiles validate_email c s)
    as [->|(user_id & payload & now & _ & _ & _ & Hcase)]; [done|].
  destruct (find_one c_profile _ s) as [p|] eqn:Ep; rewrite Hcase.
  - apply find_one_Some in Ep as [Hin Hp]. split.
    + by rewrite update_first_ids.
    + by rewrite (update_first_unique Profile.user_id).
  - apply find_one_None in Ep. rewrite !fmap_app. split.
    + apply NoDup_app. split; [done|]. split; [|apply NoDup_singleton].
      intros i Hi Hin. apply list_elem_of_singleton in Hin. subst i.
      apply list_elem_of_fmap in Hi as (d & Hd & Hin).
      pose proof (Hok _ c_profile) as Hall. rewrite Forall_forall in Hall.
      specialize (Hall d Hin). simpl in Hall, Hd. lia.
    + apply NoDup_app. split; [done|]. split; [|apply NoDup_singleton].
      intros u Hu Hin. apply list_elem_of_singleton in Hin. subst u.
      apply list_elem_of_fmap in Hu as (d & Hd & Hin).
      rewrite Forall_forall in Ep. by apply (Ep d Hin).
Qed.
End OneProfile.

Lemma profiles_stay_one_per_user_witness :
  profiles_ok
    (run example_validate_email
       [call_create_or_update_profile (str 1) (example_profile None false 3) 1;
        call_create_or_update_profile (str 3) (example_profile None false 4) 2;
        call_create_or_update_profile (str 1) (example_profile (Some "r1") true 5) 3]
       alice_bob_store).
Proof.
  apply (profiles_stay_one_per_user example_validate_email).
  split; [|split; constructor].
  unfold alice_bob_store, alice_store, signed_up.
  repeat first [ apply verify_magic_link_keeps_ok | apply send_magic_link_keeps_ok ].
  apply store_ok_empty.
Defined.

Lemma user_exists_ids s user_id :
  user_exists s user_id
  <-> exists oid, ObjectId user_id = Some oid /\ oid ∈ _id <$> users s.
Proof.
  unfold user_exists. split; intros (oid & Hoid & H); exists oid; (split; [done|]).
  - destruct H as [u Hu]. apply find_one_Some in Hu as [Hin <-].
    by apply list_elem_of_fmap_2.
  - apply list_elem_of_fmap in H as (u & -> & Hin).
    by apply (find_one_is_Some c_user _ _ u).
Qed.

Lemma ids_of_identities (l : list (doc User.t)) :
  _id <$> l = (fun i => i.1.1.1) <$> (identity <$> l).
Proof. by rewrite <- list_fmap_compose. Qed.

Section Owners.
Variable validate_email : string -> option string.

Lemma handle_keeps_users c s user_id :
  user_exists s user_id -> user_exists (handle validate_email c s) user_id.
Proof.
  rewrite !user_exists_ids. intros (oid & Hoid & Hin). exists oid. split; [done|].
  destruct (handle_users validate_email c s) as [Hsame|(email & -> & _)].
  - by rewrite ids_of_identities, Hsame, <- ids_of_identities.
  - rewrite fmap_app. apply elem_of_app. by left.
Qed.

(** X17. Profiles never dangle: if every stored profile names a stored
    user by a well-formed identifier, this is still so after any sequence of
    calls, since a profile is only saved for a user that is found and users
    are never removed. *)
Theorem owners_stay_stored calls s :
  owners_stored s -> owners_stored (run validate_email calls s).
Proof.
  revert s. induction calls as [|c calls IH]; intros s Hs; [done|].
  change (run validate_email (c :: calls) s)
    with (run validate_email calls (handle validate_email c s)).
  apply IH. unfold owners_stored in *.
  assert (Forall (fun p => user_exists (handle validate_email c s) (Profile.user_id (body p)))
            (profiles s)) as Hold.
  { eapply Forall_impl; [exact Hs|]. intros p. apply handle_keeps_users. }
  destruct (handle_profiles validate_email c s)
    as [->|(user_id & payload & now & _ & _ & Hu & Hcase)]; [done|].
  apply (handle_keeps_users c) in Hu.
  destruct (find_one c_profile _ s); rewrite Hcase.
  - by apply (update_first_Forall_body _ _
                (fun b => user_exists (handle validate_email c s) (Profile.user_id b))).
  - apply Forall_app. split; [done|]. by constructor.
Qed.
End Owners.

Lemma owners_stay_stored_witness :
  owners_stored
    (run example_validate_email
       [call_create_or_update_profile (str 1) (example_profile None false 3) 1;
        call_create_or_update_profile (str 2) (example_profile None false 3) 2;
        call_swipe "ghost" (SwipeRequest.mk (str 1) "right")]
       alice_bob_store).
Proof.
  apply (owners_stay_stored example_validate_email). constructor.
Defined.

(** ** Discovery: answers and refusals *)

Lemma owners_stored_readable s swiped l :
  owners_stored s -> l ⊆ profiles s -> Forall (readable swiped) l.
Proof.
  intros Hs Hl. apply Forall_forall. intros p Hp.
  unfold owners_stored in Hs. rewrite Forall_forall in Hs.
  destruct (Hs p (Hl p Hp)) as (oid & Hoid & _). right. by rewrite Hoid.
Qed.

(** X18. [discover] tests its preconditions in a fixed order, each refusal
    tied to its cause. A [limit] outside 1..50 is a 422, whatever the rest.
    With [limit] in range: a [user_id] that [ObjectId] refuses ends in an
    unhandled [InvalidId]; one it accepts, under which no user is stored, in
    the 404 "User not found"; a stored user without a profile under the
    [user_id] string in the 400 "Complete your profile first"; and when the
    user and the profile are found, in a store whose profiles all name
    stored users, the call returns cards. *)
Theorem discover_answers user_id limit s :
  ((limit < 1 \/ 50 < limit)%Z ->
   discover user_id limit s = Raise RequestValidationError)
  /\ ((1 <= limit <= 50)%Z ->
      (ObjectId user_id = None -> discover user_id limit s = Raise InvalidId)
      /\ forall oid,
           ObjectId user_id = Some oid ->
           (find_one c_user (fun d => _id d = oid) s = None ->
            discover user_id limit s = Raise (HTTPException 404 "User not found"))
           /\ (is_Some (find_one c_user (fun d => _id d = oid) s) ->
               (find_one c_profile (fun d => Profile.user_id (body d) = user_id) s = None ->
                discover user_id limit s
                = Raise (HTTPException 400 "Complete your profile first"))
               /\ (is_Some (find_one c_profile
                              (fun d => Profile.user_id (body d) = user_id) s) ->
                   owners_stored s ->
                   exists cards, discover user_id limit s = Ok cards))).
Proof.
  unfold discover. split.
  - intros Hl.
    replace ((limit <? 1)%Z || (50 <? limit)%Z) with true; [done|].
    symmetry. apply orb_true_iff. destruct Hl; [left|right]; by apply Z.ltb_lt.
  - intros Hl.
    replace ((limit <? 1)%Z || (50 <? limit)%Z) with false
      by (symmetry; apply orb_false_iff; split; apply Z.ltb_ge; lia).
    split; [by intros ->|]. intros oid ->. split; [by intros ->|].
    intros [user ->]. split; [by intros ->|]. intros [p ->] Hs.
    eexists. apply discover_loop_page; [simpl; lia|].
    apply (owners_stored_readable s); [done|].
    intros x Hx. apply subseteq_take in Hx. by apply list_elem_of_filter in Hx as [_ Hx].
Qed.

Lemma discover_answers_witness :
  discover (str 1) 51 profiled_store = Raise RequestValidationError
  /\ discover "alice" 20 profiled_store = Raise InvalidId
  /\ discover blank_id 20 profiled_store = Raise (HTTPException 404 "User not found")
  /\ discover (str 1) 20 alice_bob_store
     = Raise (HTTPException 400 "Complete your profile first")
  /\ exists cards, discover (str 1) 20 profiled_store = Ok cards.
Proof.
  assert (1 <= 20 <= 50)%Z as Hl by lia.
  split; [apply (discover_answers (str 1) 51 profiled_store); lia|].
  split; [by apply (discover_answers "alice" 20 profiled_store)|].
  split.
  { apply (proj2 (discover_answers blank_id 20 profiled_store) Hl) with (oid := (4 * 2 ^ 96 + 1)%N).
    - vm_compute. reflexivity.
    - vm_compute. reflexivity. }
  split.
  { apply (proj2 (discover_answers (str 1) 20 alice_bob_store) Hl) with (oid := 1%N).
    - vm_compute. reflexivity.
    - vm_compute. eauto.
    - vm_compute. reflexivity. }
  apply (proj2 (discover_answers (str 1) 20 profiled_store) Hl) with (oid := 1%N).
  - vm_compute. reflexivity.
  - vm_compute. eauto.
  - vm_compute. eauto.
  - constructor; [exists 1%N; split; [vm_compute; reflexivity|vm_compute; eauto]|].
    constructor; [exists 3%N; split; [vm_compute; reflexivity|vm_compute; eauto]|].
    constructor.
Defined.

Lemma discover_loop_shape s swiped limit cursor cards out :
  discover_loop s swiped limit cursor cards = Ok out ->
  exists new,
    out = cards ++ new
    /\ Card.user_id <$> new `sublist_of` (fun p => Profile.user_id (body p)) <$> cursor
    /\ ((length cards < limit)%nat -> (length out <= limit)%nat).
Proof.
  revert cards. induction cursor as [|prof cursor IH]; intros cards.
  - intros [= <-]. exists []. rewrite app_nil_r. split; [done|]. split; [done|lia].
  - cbn [discover_loop]. cbv zeta.
    assert (forall c, discover_loop s swiped limit cursor c = Ok out ->
              exists new, out = c ++ new
                /\ Card.user_id <$> new
                   `sublist_of` (fun p => Profile.user_id (body p)) <$> (prof :: cursor)
                /\ ((length c < limit)%nat -> (length out <= limit)%nat)) as IH'.
    { intros c Hc. destruct (IH c Hc) as (new & -> & Hsub & Hlen). exists new.
      split; [done|]. split; [|done]. rewrite fmap_cons. by apply sublist_cons. }
    destruct (bool_decide _); [by apply IH'|].
    destruct (ObjectId _) as [oid|]; [|discriminate].
    destruct (find_one c_user _ s) as [u|]; [|by apply IH'].
    destruct (User.is_banned (body u)); [by apply IH'|].
    destruct (limit <=? length (cards ++ [make_card prof u]))%nat eqn:El.
    + intros [= <-]. exists [make_card prof u]. split; [done|]. split.
      * rewrite fmap_cons. apply sublist_skip, sublist_nil_l.
      * rewrite length_app. simpl. lia.
    + apply Nat.leb_gt in El. intros Hc.
      destruct (IH _ Hc) as (new & -> & Hsub & Hlen).
      exists (make_card prof u :: new). split; [by rewrite <- app_assoc|]. split.
      * rewrite !fmap_cons. by apply sublist_skip.
      * intros _. by apply Hlen.
Qed.

(** X19. What [discover] returns is bounded and ordered: never more than
    [limit] cards, for profiles taken in the order in which they are stored
    (there is no ranking); and it returns cards only for a [limit] within
    1..50 and a requester who is a stored user with a profile. *)
Theorem discover_shape user_id limit s cards :
  discover user_id limit s = Ok cards ->
  (length cards <= Z.to_nat limit)%nat
  /\ Card.user_id <$> cards
     `sublist_of` (fun p => Profile.user_id (body p)) <$> profiles s
  /\ (1 <= limit <= 50)%Z
  /\ user_exists s user_id
  /\ is_Some (find_one c_profile (fun d => Profile.user_id (body d) = user_id) s).
Proof.
  unfold discover.
  destruct ((limit <? 1)%Z || (50 <? limit)%Z) eqn:El; [discriminate|].
  destruct (ObjectId user_id) as [oid|] eqn:Eoid; [|discriminate].
  destruct (find_one c_user _ s) as [user|] eqn:Eu; [|discriminate].
  destruct (find_one c_profile _ s) as [p|] eqn:Ep; [|discriminate].
  intros Hloop. apply discover_loop_shape in Hloop as (new & -> & Hsub & Hlen).
  split; [apply Hlen; simpl; lia|]. split.
  - simpl. etransitivity; [exact Hsub|]. apply fmap_sublist.
    etransitivity; [apply sublist_take|apply sublist_filter].
  - split; [lia|]. split; [|done]. exists oid. by rewrite Eu.
Qed.

Lemma discover_shape_witness :
  (length [Card.mk (str 3) (Some "Sam") (Some 20%Z) (Some "hello") (Some "r1")
             (photos_docs (replicate 3 "https://img/p.jpg"))] <= Z.to_nat 20)%nat
  /\ Card.user_id <$> [Card.mk (str 3) (Some "Sam") (Some 20%Z) (Some "hello") (Some "r1")
                         (photos_docs (replicate 3 "https://img/p.jpg"))]
     `sublist_of` (fun p => Profile.user_id (body p)) <$> profiles profiled_store
  /\ (1 <= 20 <= 50)%Z
  /\ user_exists profiled_store (str 1)
  /\ is_Some (find_one c_profile (fun d => Profile.user_id (body d) = str 1) profiled_store).
Proof.
  apply (discover_shape (str 1) 20 profiled_store). vm_compute. reflexivity.
Defined.

(** X20. As the filter is written, a requester who has a residence and does
    not allow all residences is never shown anyone: the key [residence_id]
    is compared with profile documents, which do not have it, so no profile
    matches and [discover] answers with an empty list, whoever lives in the
    same residence. *)
Theorem discover_empty_for_residents user_id limit s oid user residence :
  (1 <= limit <= 50)%Z ->
  ObjectId user_id = Some oid ->
  find_one c_user (fun d => _id d = oid) s = Some user ->
  is_Some (find_one c_profile (fun d => Profile.user_id (body d) = user_id) s) ->
  User.allow_all_residences (body user) = false ->
  User.residence_id (body user) = Some residence ->
  discover user_id limit s = Ok [].
Proof.
  intros Hlimit Hoid Hu [p Hp] Hallow Hres. unfold discover.
  replace ((limit <? 1)%Z || (50 <? limit)%Z) with false by lia.
  rewrite Hoid, Hu, Hp.
  replace (find c_profile (profile_matches (discover_filter user_id user)) s)
    with ([] : list (doc Profile.t)); [by rewrite take_nil|].
  symmetry. apply filter_none, Forall_forall. intros d _ Hd.
  apply residence_filter_blind in Hd as [_ Hnone]; [congruence|done].
Qed.

Lemma discover_empty_for_residents_witness : discover (str 3) 20 profiled_store = Ok [].
Proof.
  eapply (discover_empty_for_residents (str 3) 20 profiled_store 3%N _ "r1").
  - lia.
  - vm_compute. reflexivity.
  - vm_compute. reflexivity.
  - vm_compute. eauto.
  - reflexivity.
  - reflexivity.
Defined.

(** ** Match listing, messages and reports *)

Lemma list_matches_loop_Some s user_id ms cleaned l :
  mapM (match_summary s user_id) ms = Some l ->
  list_matches_loop s user_id ms cleaned = Ok (cleaned ++ l).
Proof.
  revert cleaned l. induction ms as [|m ms IH]; intros cleaned l.
  - intros [= <-]. cbn. by rewrite app_nil_r.
  - cbn [list_matches_loop mapM].
    destruct (match_summary s user_id m) as [y|] eqn:Ey; [|discriminate].
    unfold match_summary in Ey.
    destruct (ObjectId (other_id user_id m)) as [oid|]; [|discriminate].
    destruct (find_one c_user (fun d => _id d = oid) s) as [u|]; [|discriminate].
    injection Ey as <-.
    cbn. destruct (mapM _ ms) as [l'|] eqn:E; [|discriminate].
    intros [= <-]. rewrite (IH _ l') by done. by rewrite <- app_assoc.
Qed.

Lemma list_matches_loop_None s user_id ms cleaned :
  mapM (match_summary s user_id) ms = None ->
  exists e, list_matches_loop s user_id ms cleaned = Raise e.
Proof.
  revert cleaned. induction ms as [|m ms IH]; intros cleaned; [discriminate|].
  cbn [list_matches_loop mapM].
  destruct (match_summary s user_id m) as [y|] eqn:Ey; unfold match_summary in Ey;
    destruct (ObjectId (other_id user_id m)) as [oid|]; try discriminate;
    try (intros _; by eexists);
    destruct (find_one c_user (fun d => _id d = oid) s) as [u|]; try discriminate;
    try (intros _; by eexists).
  cbn. destruct (mapM _ ms) as [l'|] eqn:E; [discriminate|].
  intros _. by apply IH.
Qed.

(** X21. [list_matches] answers with one summary per match record of the
    user, in storage order: the match identifier printed, the counterpart's
    id and first name, and the photos of the counterpart's first profile, an
    empty list when the counterpart has no profile. It answers exactly when
    every counterpart is a stored user; a user without matches gets the
    empty list. *)
Theorem list_matches_summaries s user_id l :
  list_matches user_id s = Ok l
  <-> mapM (match_summary s user_id) (find c_match (match_of user_id) s) = Some l.
Proof.
  unfold list_matches. split.
  - intros Hl. destruct (mapM _ _) as [l'|] eqn:E.
    + rewrite (list_matches_loop_Some _ _ _ [] l' E) in Hl. by injection Hl as ->.
    + destruct (list_matches_loop_None _ _ _ [] E) as [e He]. congruence.
  - intros E. by rewrite (list_matches_loop_Some _ _ _ [] l E).
Qed.

(** X22. A message sent is a message listed: after a participant's
    [send_message], either participant's [list_messages] for that match is
    the former list followed by the new message, under the identifier the
    store gave it and with the caller as sender; the lists of other matches
    are what they were. *)
Theorem send_then_list_messages s sender reader match_id text m before :
  find_match_for sender match_id s = Ok m ->
  list_messages reader match_id s = Ok before ->
  let s' := snd (send_message sender (MessageRequest.mk match_id text) s) in
  send_message sender (MessageRequest.mk match_id text) s = (Ok "sent", s')
  /\ list_messages reader match_id s'
     = Ok (before ++ [(str (next_id s), Message.mk match_id sender text)])
  /\ (forall other_reader other_match,
        other_match <> match_id ->
        list_messages other_reader other_match s'
        = list_messages other_reader other_match s).
Proof.
  intros Hm Hbefore s'. subst s'.
  unfold send_message, bind, query.
  cbn [MessageRequest.match_id MessageRequest.text]. rewrite Hm. cbn [fst snd].
  unfold create_document, bind, insert_one, ret. cbn [fst snd].
  split; [reflexivity|].
  assert (forall r mid st, matches st = matches s ->
            find_match_for r mid st = find_match_for r mid s) as Hfm.
  { intros r mid st Hst. unfold find_match_for, find_one, find. cbn [db]. by rewrite Hst. }
  unfold list_messages in *. split.
  - rewrite Hfm by reflexivity.
    destruct (find_match_for reader match_id s); [|discriminate].
    injection Hbefore as <-. unfold find. cbn.
    rewrite filter_app, fmap_app, filter_cons_True by done. done.
  - intros r mid Hne. rewrite Hfm by reflexivity.
    destruct (find_match_for r mid s); [|done].
    unfold find. cbn. rewrite filter_app, filter_cons_False by (simpl; congruence).
    by rewrite app_nil_r.
Qed.

Lemma send_then_list_messages_witness :
  list_messages (str 3) (str 8)
    (snd (send_message (str 1) (MessageRequest.mk (str 8) "ciao") matched_store))
  = Ok ([] ++ [(str (next_id matched_store), Message.mk (str 8) (str 1) "ciao")]).
Proof.
  apply (send_then_list_messages matched_store (str 1) (str 3) (str 8)
           "ciao" (Doc 8%N (Match.mk (str 3) (str 1))) []).
  - vm_compute. reflexivity.
  - vm_compute. reflexivity.
Defined.

Lemma list_matches_summaries_witness :
  list_matches (str 1) matched_store
  = Ok [MatchSummary.mk (str 8) (str 3) (Some "Sam")
          (photos_docs (replicate 3 "https://img/p.jpg"))].
Proof.
  apply (list_matches_summaries matched_store (str 1)). vm_compute. reflexivity.
Defined.

(** X23. The guard of the two message handlers distinguishes three cases
    before anything is read or written: a [match_id] that [ObjectId]
    refuses ends in an unhandled [InvalidId], not in a 404; one it accepts,
    under which no match is stored, gets the 404 "Match not found"; and
    whenever [send_message] fails, the store is left as it was. [ObjectId]
    refuses a string that is not 24 characters long or that [bytes.fromhex]
    cannot read; it accepts 24 characters with blanks between the bytes,
    which then get the 404. *)
Theorem messaging_refusals s user_id match_id text :
  (ObjectId match_id = None ->
   list_messages user_id match_id s = Raise InvalidId
   /\ send_message user_id (MessageRequest.mk match_id text) s = (Raise InvalidId, s))
  /\ (forall oid,
        ObjectId match_id = Some oid ->
        find_one c_match (fun d => _id d = oid) s = None ->
        list_messages user_id match_id s = Raise (HTTPException 404 "Match not found")
        /\ send_message user_id (MessageRequest.mk match_id text) s
           = (Raise (HTTPException 404 "Match not found"), s))
  /\ (forall e s',
        send_message user_id (MessageRequest.mk match_id text) s = (Raise e, s') ->
        s' = s).
Proof.
  unfold list_messages, send_message, bind, query, raise.
  cbn [MessageRequest.match_id]. split; [|split].
  - intros Hid. unfold find_match_for. by rewrite Hid.
  - intros oid Hid Hnone. unfold find_match_for. by rewrite Hid, Hnone.
  - intros e s'. destruct (find_match_for user_id match_id s); [discriminate|].
    by intros [= _ <-].
Qed.

Lemma messaging_refusals_witness :
  (list_messages (str 1) "not-an-id" matched_store = Raise InvalidId
   /\ send_message (str 1) (MessageRequest.mk "not-an-id" "hi") matched_store
      = (Raise InvalidId, matched_store))
  /\ (list_messages (str 1) blank_id matched_store
      = Raise (HTTPException 404 "Match not found")
      /\ send_message (str 1) (MessageRequest.mk blank_id "hi") matched_store
         = (Raise (HTTPException 404 "Match not found"), matched_store)).
Proof.
  split.
  - apply (messaging_refusals matched_store (str 1) "not-an-id" "hi").
    vm_compute. reflexivity.
  - apply (proj1 (proj2 (messaging_refusals matched_store (str 1) blank_id "hi")))
      with (oid := (4 * 2 ^ 96 + 1)%N).
    + vm_compute. reflexivity.
    + vm_compute. reflexivity.
Defined.

(** X24. [report] tests the reason and nothing else: an empty reason is
    refused with a 400 and nothing is stored; any other reason, however
    long, is stored in one new report with the caller as reporter, whether
    one target, both or none is given and whether or not the ids name
    anything stored. No other collection changes. *)
Theorem report_outcomes s user_id target_user_id target_message_id reason details :
  (reason = "" ->
   report user_id target_user_id target_message_id reason details s
   = (Raise (HTTPException 400 "Reason is required"), s))
  /\ (reason <> "" ->
      report user_id target_user_id target_message_id reason details s
      = (Ok "reported",
         Store (users s) (profiles s) (verifications s) (swipes s) (matches s) (messages s)
           (reports s
            ++ [Doc (next_id s)
                  (Report.mk user_id target_user_id target_message_id reason details)])
           (N.succ (next_id s)))).
Proof.
  unfold report. split.
  - by intros ->.
  - intros Hne. apply String.eqb_neq in Hne. by rewrite Hne.
Qed.

Lemma report_outcomes_witness :
  report "nobody" None None long_text None empty_store
  = (Ok "reported",
     Store [] [] [] [] [] [] [Doc 0%N (Report.mk "nobody" None None long_text None)] 1%N).
Proof.
  apply (report_outcomes empty_store "nobody" None None long_text None).
  vm_compute. discriminate.
Defined.

(** ** Magic links: one use per link *)

Lemma update_first_used_count email token (l : list (doc Verification.t)) rec :
  NoDup (_id <$> l) -> rec ∈ l -> pending email token rec ->
  (length (filter (pending email token)
             (update_first (fun d => _id d = _id rec) mark_used l)) + 1
   = length (filter (pending email token) l))%nat.
Proof.
  intros Hnd Hin Hrec. induction l as [|x l IH]; [by apply elem_of_nil in Hin|].
  rewrite fmap_cons in Hnd. apply NoDup_cons in Hnd as [Hx Hnd].
  cbn [update_first]. destruct (decide (_id x = _id rec)) as [Hid|Hid].
  - assert (x = rec) as ->.
    { apply elem_of_cons in Hin as [->|Hin]; [done|].
      destruct Hx. rewrite Hid. by apply list_elem_of_fmap_2. }
    rewrite filter_cons_False by (unfold pending, mark_used; simpl; intros (_ & _ & [=])).
    rewrite (filter_cons_True _ rec) by done. simpl. lia.
  - apply elem_of_cons in Hin as [->|Hin]; [done|].
    rewrite !filter_cons. destruct (decide (pending email token x)); simpl;
      rewrite <- (IH Hnd Hin); lia.
Qed.

Lemma update_first_used_other email token (l : list (doc Verification.t)) rec :
  NoDup (_id <$> l) -> rec ∈ l -> ~ pending email token rec ->
  filter (pending email token) (update_first (fun d => _id d = _id rec) mark_used l)
  = filter (pending email token) l.
Proof.
  intros Hnd Hin Hrec. induction l as [|x l IH]; [done|].
  rewrite fmap_cons in Hnd. apply NoDup_cons in Hnd as [Hx Hnd].
  cbn [update_first]. destruct (decide (_id x = _id rec)) as [Hid|Hid].
  - assert (x = rec) as ->.
    { apply elem_of_cons in Hin as [->|Hin]; [done|].
      destruct Hx. rewrite Hid. by apply list_elem_of_fmap_2. }
    rewrite filter_cons_False by (unfold pending, mark_used; simpl; intros (_ & _ & [=])).
    by rewrite filter_cons_False.
  - apply elem_of_cons in Hin as [->|Hin]; [done|].
    rewrite !filter_cons. by rewrite (IH Hnd Hin).
Qed.

Section OneUse.
Variable validate_email : string -> option string.

(** X25. A successful verification consumes exactly one link: where the
    verification records have distinct identifiers, the number of unused
    records for the address and token goes down by one, and the unused
    records of every other address or token are what they were. *)
Theorem verify_consumes_one_link payload now s resp s' :
  NoDup (_id <$> verifications s) ->
  verify_magic_link validate_email payload now s = (Ok resp, s') ->
  let email := lower (VerifyMagicLinkRequest.email payload) in
  let token := VerifyMagicLinkRequest.token payload in
  (length (filter (pending email token) (verifications s')) + 1
   = length (filter (pending email token) (verifications s)))%nat
  /\ (forall email' token',
        (email', token') <> (email, token) ->
        filter (pending email' token') (verifications s')
        = filter (pending email' token') (verifications s)).
Proof.
  intros Hnd. unfold verify_magic_link.
  destruct (negb _); [discriminate|].
  unfold bind, query, get_documents, find. cbn [db].
  destruct (last _) as [rec|] eqn:Elast; [|discriminate].
  apply last_Some in Elast as [recs Hrecs].
  assert (rec ∈ filter (pending (lower (VerifyMagicLinkRequest.email payload))
                          (VerifyMagicLinkRequest.token payload)) (verifications s)) as Hin.
  { rewrite Hrecs. apply elem_of_app. right. by apply list_elem_of_singleton. }
  apply list_elem_of_filter in Hin as [Hrec Hin].
  destruct (_ <? _)%Z; [discriminate|].
  assert (forall st, verifications st = verifications s ->
            (length (filter (pending (lower (VerifyMagicLinkRequest.email payload))
                               (VerifyMagicLinkRequest.token payload))
                       (update_first (fun d => _id d = _id rec) mark_used
                          (verifications st))) + 1
             = length (filter (pending (lower (VerifyMagicLinkRequest.email payload))
                                 (VerifyMagicLinkRequest.token payload))
                         (verifications s)))%nat
            /\ (forall email' token',
                  (email', token')
                  <> (lower (VerifyMagicLinkRequest.email payload),
                      VerifyMagicLinkRequest.token payload) ->
                  filter (pending email' token')
                    (update_first (fun d => _id d = _id rec) mark_used (verifications st))
                  = filter (pending email' token') (verifications s))) as Hgoal.
  { intros st ->. split; [by apply update_first_used_count|].
    intros email' token' Hne. apply update_first_used_other; [done|done|].
    intros (He & Ht & _). destruct Hrec as (He' & Ht' & _). apply Hne. congruence. }
  destruct (find_one c_user _ s); intros [= _ <-]; by apply Hgoal.
Qed.
End OneUse.

Lemma verify_consumes_one_link_witness :
  (length (filter (pending (lower "alice@polito.it") "token-a") (verifications alice_store)) + 1
   = length (filter (pending (lower "alice@polito.it") "token-a")
               (verifications
                  (snd (send_magic_link example_validate_email
                          (SendMagicLinkRequest.mk "alice@polito.it" "login") "token-a" 0
                          empty_store)))))%nat.
Proof.
  apply (verify_consumes_one_link example_validate_email
           (VerifyMagicLinkRequest.mk "alice@polito.it" "token-a") 0
           (snd (send_magic_link example_validate_email
                   (SendMagicLinkRequest.mk "alice@polito.it" "login") "token-a" 0
                   empty_store))
           (VerifyResponse.mk "Verified" (str 1)) alice_store).
  - vm_compute. apply NoDup_singleton.
  - vm_compute. reflexivity.
Defined.
